(** * Tourism agent (app.py): geocoding, weather, places and the orchestrator

    A shallow embedding of the logic of [app.py] and the properties its
    specification states about it.

    Conventions of the embedding.
    - Python [float]s (coordinates, distances, JSON numbers with a fraction)
      are read as real numbers: [haversine] is the formula of the source over
      [R], comparisons are the order of [R].  Rounding, overflow and NaN of
      binary64 are not part of this reading; what is stated about
      [haversine] does not depend on the digits of a distance: symmetry, the
      value [0] at equal coordinates, which entries get a distance, and the
      order of the entries by the distance they carry.
    - A provider call ([requests.get]/[requests.post], [raise_for_status],
      [resp.json()]) is an oracle that yields the decoded response or fails
      (the [except] branches); every call is recorded in a log, so that "this
      provider was not called" is a statement about the log.
    - A response is decoded along the provider's schema with every field
      optional.  Responses outside the schema are not modelled; a member of
      the wrong type (a string for a coordinate, a number for the block of
      current conditions) raises inside the [try], which is the failure case
      of the oracle.
    - A naive [datetime] is a count of microseconds.  [total_seconds()] of a
      difference is the binary64 value nearest to the count divided by
      [10^6]; the rounding is modelled ([total_seconds]), because the
      choice of the nearest hour compares these floats.
    - Python's [None] is [JNull] among JSON values and [None] for optional
      results.
    - [float(str)] and [datetime.fromisoformat] belong to the Python runtime:
      the functions take them from the class [PyRuntime]. *)

From Stdlib Require Import Reals Lra Lia ZArith List String Ascii Sorted Permutation.
From stdpp Require Import base decidable option list sorting gmap sets strings pretty.

Local Open Scope string_scope.
Local Open Scope list_scope.

(** ** Python values *)

#[global] Instance R_eq_dec : EqDecision R := Req_dec_T.
#[global] Instance Rlt_decision (x y : R) : Decision (x < y)%R := Rlt_dec x y.

(** A JSON scalar as Python sees it after [resp.json()]. *)
Inductive jval : Type :=
  | JNull
  | JInt (z : Z)
  | JFloat (r : R)
  | JStr (s : string).

#[global] Instance jval_eq_dec : EqDecision jval.
Proof. solve_decision. Defined.

(** A JSON object with scalar members: a Python [dict]. *)
Abbreviation dict := (gmap string jval).

(** [d.get(k)]: the member, [None] when it is missing. *)
Definition py_get (d : dict) (k : string) : jval := default JNull (d !! k).

(** The two runtime functions the source calls on provider strings.
    [float_of_str s] is [float(s)], [None] when it raises [ValueError].
    [fromisoformat s] is [datetime.fromisoformat(s).replace(tzinfo=None)] as a
    count of microseconds on the naive time line, [None] when it raises. *)
Class PyRuntime : Type := {
  float_of_str : string -> option R;
  fromisoformat : string -> option Z
}.

(** ** Utilities (source lines 35-43) *)

Section Distance.
Local Open Scope R_scope.

(** [math.radians] *)
Definition radians (x : R) : R := x * (PI / 180).

(** [haversine(lat1, lon1, lat2, lon2)]: distance in km. *)
Definition haversine (lat1 lon1 lat2 lon2 : R) : R :=
  let R_km := 6371 in
  let phi1 := radians lat1 in
  let phi2 := radians lat2 in
  let dphi := radians (lat2 - lat1) in
  let dlambda := radians (lon2 - lon1) in
  let a := sin (dphi / 2) ^ 2 + cos phi1 * cos phi2 * sin (dlambda / 2) ^ 2 in
  2 * R_km * asin (sqrt a).

(** The local [a] of [haversine], named for the proofs. *)
Definition hav_a (lat1 lon1 lat2 lon2 : R) : R :=
  sin (radians (lat2 - lat1) / 2) ^ 2
  + cos (radians lat1) * cos (radians lat2) * sin (radians (lon2 - lon1) / 2) ^ 2.


End Distance.

(** ** Provider calls and their log *)

(** One Overpass element: [type], node coordinates, [center] of a way, [tags]. *)
Record center : Type := {
  c_lat : option R;
  c_lon : option R
}.

Record element : Type := {
  el_type : option string;
  el_lat : option R;
  el_lon : option R;
  el_center : option center;
  el_tags : option (gmap string string)
}.

(** The [hourly] object of Open-Meteo: parallel arrays, a missing or [null]
    array is the empty list (both are falsy in [if times and probs]). *)
Record hourly : Type := {
  h_time : list string;
  h_precipitation_probability : list jval
}.

(** The Open-Meteo response.  [m_current_weather] is [data.get("current_weather")];
    [m_hourly] is [None] when the key is missing or not a usable object. *)
Record meteo : Type := {
  m_current_weather : option dict;
  m_hourly : option hourly
}.

(** The requests the program sends. *)
Inductive request : Type :=
  | NominatimSearch (q : string) (limit : Z)
  | OpenMeteoForecast (lat lon : R)
  | OverpassQuery (lat lon : R) (radius_m : Z).

(** The three providers: the decoded response, or [None] when the request,
    the status check or the decoding raises. *)
Record providers : Type := {
  nominatim : string -> Z -> option (list dict);
  open_meteo : R -> R -> option meteo;
  overpass : R -> R -> Z -> option (list element)
}.

(** Computations that send requests: the log of requests is threaded. *)
Definition Net (A : Type) : Type := list request -> A * list request.

Definition net_ret {A} (a : A) : Net A := fun log => (a, log).

Definition net_bind {A B} (m : Net A) (k : A -> Net B) : Net B :=
  fun log => let '(a, log') := m log in k a log'.

Definition send {A} (r : request) (answer : A) : Net A :=
  fun log => (answer, log ++ [r]).

Declare Scope net_scope.
Delimit Scope net_scope with net.
Notation "x <~ m ;; k" := (net_bind m (fun x => k))
  (at level 100, m at next level, right associativity) : net_scope.

(** ** Geocoding (source lines 46-71) *)

Record geocode : Type := {
  g_lat : R;
  g_lon : R;
  g_display_name : jval;
  g_raw : dict
}.

Section Agents.
Context `{PyRuntime}.
Variable P : providers.

(** [float(v)] of the source's [float(item["lat"])]. *)
Definition py_float (v : jval) : option R :=
  match v with
  | JNull => None
  | JInt z => Some (IZR z)
  | JFloat r => Some r
  | JStr s => float_of_str s
  end.

(** The body of the [try] once the response is there. *)
Definition geocode_of (place : string) (resp : option (list dict)) : option geocode :=
  match resp with
  | None => None
  | Some [] => None
  | Some (item :: _) =>
      lat_v ← item !! "lat";
      lat ← py_float lat_v;
      lon_v ← item !! "lon";
      lon ← py_float lon_v;
      Some {| g_lat := lat;
              g_lon := lon;
              g_display_name := default (JStr place) (item !! "display_name");
              g_raw := item |}
  end.

Definition geocode_place (place : string) (limit : Z) : Net (option geocode) :=
  (resp <~ send (NominatimSearch place limit) (nominatim P place limit) ;;
   net_ret (geocode_of place resp))%net.

(** ** Weather (source lines 74-136) *)

Record weather : Type := {
  w_temperature : jval;
  w_windspeed : jval;
  w_time : jval;
  w_precip_prob : option Z;
  w_raw : meteo
}.

(** [round(x)] of a Python float: to the nearest integer, halves to the even
    one. *)
Definition round_half_even (r : R) : Z :=
  let f := Int_part r in
  let d := (r - IZR f)%R in
  if decide (d < 1 / 2)%R then f
  else if decide (1 / 2 < d)%R then (f + 1)%Z
  else if Z.even f then f else (f + 1)%Z.

(** [int(round(v))]; [None] when [round] raises [TypeError]. *)
Definition int_round (v : jval) : option Z :=
  match v with
  | JInt z => Some z
  | JFloat r => Some (round_half_even r)
  | JNull | JStr _ => None
  end.

(** [l.index(x)] *)
Fixpoint py_index {A} `{EqDecision A} (x : A) (l : list A) : option nat :=
  match l with
  | [] => None
  | y :: l' => if decide (x = y) then Some 0%nat else S <$> py_index x l'
  end.

(** [min(l)] of a list of numbers; [None] for the empty list. *)
Fixpoint py_min (l : list Z) : option Z :=
  match l with
  | [] => None
  | x :: l' => match py_min l' with
               | None => Some x
               | Some m => Some (if (m <? x)%Z then m else x)
               end
  end.

(** The integer nearest to [n / d], halves to the even one. *)
Definition rne (n d : Z) : Z :=
  let a := (n / d)%Z in
  let r := (n mod d)%Z in
  if (2 * r <? d)%Z then a
  else if (d <? 2 * r)%Z then (a + 1)%Z
  else if Z.even a then a else (a + 1)%Z.

(** [n / d] of two positive Python integers: the binary64 value nearest to
    the quotient, halves to the even significand.  The value is returned as
    a count of [2^-80]: with [2^e <= n / d < 2^(e+1)] the 53-bit significand
    is [n / d] in units of [2^(e-52)], rounded.  (For quotients of at least
    [2^-28]; those of [total_seconds] lie between [10^-6] and [10^12], far
    from the subnormal numbers and from overflow.) *)
Definition float_of_ratio (n d : Z) : Z :=
  let scaled := (n * 2 ^ 80)%Z in
  let q := (Z.log2 (scaled / d) - 52)%Z in
  (rne scaled (d * 2 ^ q) * 2 ^ q)%Z.

(** [delta.total_seconds()] of a difference of [us] microseconds: the float
    [us / 10**6], as a count of [2^-80] seconds. *)
Definition total_seconds (us : Z) : Z :=
  (Z.sgn us * float_of_ratio (Z.abs us) 1000000)%Z.

(** [to_ts]: the inner function of the fallback branch. *)
Definition to_ts (v : jval) : option Z :=
  match v with
  | JStr s => fromisoformat s
  | _ => None
  end.

(** [curtime in times] for a list of strings. *)
Definition time_in (curtime : jval) (times : list string) : bool :=
  match curtime with
  | JStr s => bool_decide (s ∈ times)
  | _ => false
  end.

(** The inner [try] (source lines 105-126): the precipitation probability of
    the current hour, [None] when it is left absent. *)
Definition align_precip (curtime : jval) (times : list string) (probs : list jval)
  : option Z :=
  match times, probs with
  | _ :: _, _ :: _ =>
      if time_in curtime times then
        idx ← (match curtime with JStr s => py_index s times | _ => None end);
        p ← probs !! idx;
        int_round p
      else
        times_ts ← mapM (fun t => to_ts (JStr t)) times;
        cur_ts ← to_ts curtime;
        let diffs := (fun t => Z.abs (total_seconds (cur_ts - t))) <$> times_ts in
        m ← py_min diffs;
        idx ← py_index m diffs;
        p ← probs !! idx;
        int_round p
  | _, _ => None
  end.

Definition precip_of (curr : dict) (h : option hourly) : option Z :=
  match h with
  | None => None
  | Some h => align_precip (py_get curr "time") (h_time h) (h_precipitation_probability h)
  end.

(** The body of the outer [try] once the response is there. *)
Definition weather_of (resp : option meteo) : option weather :=
  match resp with
  | None => None
  | Some data =>
      match m_current_weather data with
      | None => None
      | Some curr =>
          if decide (curr = ∅) then None
          else Some {| w_temperature := py_get curr "temperature";
                       w_windspeed := py_get curr "windspeed";
                       w_time := py_get curr "time";
                       w_precip_prob := precip_of curr (m_hourly data);
                       w_raw := data |}
      end
  end.

Definition get_weather (lat lon : R) : Net (option weather) :=
  (resp <~ send (OpenMeteoForecast lat lon) (open_meteo P lat lon) ;;
   net_ret (weather_of resp))%net.

(** ** Places (source lines 139-215) *)

(** One entry of the result of [find_places]; [p_type] is the key ["type"]. *)
Record place : Type := {
  p_name : string;
  p_tags : gmap string string;
  p_type : string;
  p_lat : option R;
  p_lon : option R;
  p_distance_km : option R
}.

#[global] Instance place_eq_dec : EqDecision place.
Proof. solve_decision. Defined.

(** Truth value of an optional number: [None] and zero are falsy. *)
Definition truthy_num (x : option R) : bool :=
  match x with
  | Some r => bool_decide (r <> 0%R)
  | None => false
  end.

(** Truth value of an optional string: [None] and the empty string are falsy. *)
Definition truthy_str (x : option string) : bool :=
  match x with
  | Some s => bool_decide (s <> "")
  | None => false
  end.

(** Source lines 176-186: the coordinates of an element, [None] for
    [continue]. *)
Definition coordinates (el : element) : option (option R * option R) :=
  if decide (el_type el = Some "node") then Some (el_lat el, el_lon el)
  else
    let center := default {| c_lat := None; c_lon := None |} (el_center el) in
    match c_lat center, c_lon center with
    | Some plat, Some plon => Some (Some plat, Some plon)
    | _, _ => None
    end.

(** Source line 188: [haversine(lat, lon, plat, plon) if plat and plon else None]. *)
Definition distance_of (lat lon : R) (plat plon : option R) : option R :=
  if truthy_num plat && truthy_num plon then
    match plat, plon with
    | Some a, Some b => Some (haversine lat lon a b)
    | _, _ => None
    end
  else None.

(** Source lines 191-195: the first of the four keys with a non-empty value. *)
Fixpoint primary_tag (tags : gmap string string) (keys : list string) : option string :=
  match keys with
  | [] => None
  | k :: keys' =>
      if truthy_str (tags !! k) then Some (k +:+ "=" +:+ default "" (tags !! k))
      else primary_tag tags keys'
  end.

Definition tag_keys : list string := ["tourism"; "historic"; "leisure"; "amenity"].

(** One turn of the loop over [elems] (source lines 166-204) on the pair
    [(places, seen_names)]. *)
Definition scan (lat lon : R) (st : list place * gset string) (el : element)
  : list place * gset string :=
  let '(places, seen_names) := st in
  let tags := default ∅ (el_tags el) in
  let name := tags !! "name" in
  if negb (truthy_str name) then st
  else
    let name := default "" name in
    if decide (name ∈ seen_names) then st
    else
      let seen_names := seen_names ∪ {[ name ]} in
      match coordinates el with
      | None => (places, seen_names)
      | Some (plat, plon) =>
          let dist := distance_of lat lon plat plon in
          (places ++ [ {| p_name := name;
                          p_tags := tags;
                          p_type := default "other" (primary_tag tags tag_keys);
                          p_lat := plat;
                          p_lon := plon;
                          p_distance_km := dist |} ],
           seen_names)
      end.

(** The list [places] after the loop. *)
Definition collect (lat lon : R) (elems : list element) : list place :=
  (foldl (scan lat lon) ([], ∅) elems).1.

(** The key comparison of [sorted(..., key=lambda x: x["distance_km"])]. *)
Definition dist_lt (p q : place) : bool :=
  match p_distance_km p, p_distance_km q with
  | Some a, Some b => bool_decide (a < b)%R
  | _, _ => false
  end.

(** [sorted] is stable: an entry goes before the entries that came after it
    and are not smaller. *)
Fixpoint insert_by_distance (x : place) (l : list place) : list place :=
  match l with
  | [] => [x]
  | y :: l' => if dist_lt y x then y :: insert_by_distance x l' else x :: l
  end.

Definition sorted_by_distance (l : list place) : list place :=
  foldr insert_by_distance [] l.

(** [l[:k]] for a Python integer [k]. *)
Definition slice_to {A} (k : Z) (l : list A) : list A :=
  if (0 <=? k)%Z then take (Z.to_nat k) l
  else take (length l - Z.to_nat (- k)) l.

(** Source lines 206-213. *)
Definition rank (places : list place) (max_places : Z) : list place :=
  let places_sorted :=
    sorted_by_distance (filter (fun p => is_Some (p_distance_km p)) places) in
  let places_sorted :=
    if (Z.of_nat (length places_sorted) <? max_places)%Z then
      let remaining := filter (fun p => p ∉ places_sorted) places in
      places_sorted ++ remaining
    else places_sorted in
  slice_to max_places places_sorted.

(** The body of the [try] once the response is there; [elems] is
    [data.get("elements", [])]. *)
Definition places_of (lat lon : R) (resp : option (list element)) (max_places : Z)
  : list place :=
  match resp with
  | None => []
  | Some elems => rank (collect lat lon elems) max_places
  end.

Definition find_places (lat lon : R) (radius_m max_places : Z) : Net (list place) :=
  (resp <~ send (OverpassQuery lat lon radius_m) (overpass P lat lon radius_m) ;;
   net_ret (places_of lat lon resp max_places))%net.

(** ** Orchestrator (source lines 218-247) *)

(** The member ["place"] of a successful result. *)
Record place_info : Type := {
  pi_query : string;
  pi_display_name : jval;
  pi_lat : R;
  pi_lon : R
}.

(** The result of [plan_for_place]: [{"ok": False, "error": ...}] or
    [{"ok": True, "place": ..., "weather": ..., "places": ...}]. *)
Inductive plan : Type :=
  | PlanError (error : string)
  | PlanOk (info : place_info) (w : option weather) (ps : list place).

Definition ok (r : plan) : bool :=
  match r with
  | PlanError _ => false
  | PlanOk _ _ _ => true
  end.

Definition unknown_place (place_query : string) : string :=
  "I don't know this place exists: '" +:+ place_query
  +:+ "'. Please check spelling or try a different place.".

Definition plan_for_place (place_query : string) : Net plan :=
  (geocode <~ geocode_place place_query 1 ;;
   match geocode with
   | None => net_ret (PlanError (unknown_place place_query))
   | Some g =>
       let lat := g_lat g in
       let lon := g_lon g in
       let display_name := g_display_name g in
       weather <~ get_weather lat lon ;;
       places <~ find_places lat lon 20000 5 ;;
       net_ret (PlanOk {| pi_query := place_query;
                          pi_display_name := display_name;
                          pi_lat := lat;
                          pi_lon := lon |}
                       weather places)
   end)%net.

End Agents.

(** ** A reference runtime for evaluating examples

    It reads the formats the three providers emit: decimal numerals for
    [float], and [YYYY-MM-DD], [YYYY-MM-DDTHH:MM], [YYYY-MM-DDTHH:MM:SS] for
    [fromisoformat].  The general theorems below hold for every runtime; this
    one is used where a statement is evaluated on concrete strings. *)

Definition digit (c : ascii) : option Z :=
  let n := Z.of_nat (nat_of_ascii c) in
  if ((48 <=? n) && (n <=? 57))%Z then Some (n - 48)%Z else None.

Fixpoint digits_from (acc : Z) (l : list ascii) : option Z :=
  match l with
  | [] => Some acc
  | c :: l' => d ← digit c; digits_from (10 * acc + d) l'
  end.

(** A non-empty run of decimal digits. *)
Definition numeral (l : list ascii) : option Z :=
  match l with
  | [] => None
  | _ :: _ => digits_from 0 l
  end.

Definition is_leap (y : Z) : bool :=
  ((y mod 4 =? 0) && (negb (y mod 100 =? 0) || (y mod 400 =? 0)))%Z.

Definition days_in_month (y m : Z) : Z :=
  if ((m =? 4) || (m =? 6) || (m =? 9) || (m =? 11))%Z then 30
  else if (m =? 2)%Z then (if is_leap y then 29 else 28)
  else 31.

Definition days_before_year (y : Z) : Z :=
  let y' := (y - 1)%Z in (y' * 365 + y' / 4 - y' / 100 + y' / 400)%Z.

Definition days_before_month (y m : Z) : Z :=
  foldr Z.add 0%Z ((fun k => days_in_month y (Z.of_nat k)) <$> seq 1 (Z.to_nat m - 1)).

(** The naive time point of a civil date and time, in microseconds; [None]
    when a field is out of range. *)
Definition time_point (y mo d h mi s : Z) : option Z :=
  if ((1 <=? y) && (y <=? 9999) && (1 <=? mo) && (mo <=? 12)
      && (1 <=? d) && (d <=? days_in_month y mo)
      && (h <? 24) && (mi <? 60) && (s <? 60))%Z
  then Some (((((days_before_year y + days_before_month y mo + d) * 24 + h) * 60 + mi)
             * 60 + s) * 1000000)%Z
  else None.

Definition iso_time (l : list ascii) : option (Z * Z * Z) :=
  match l with
  | [] => Some (0, 0, 0)%Z
  | _ :: h1 :: h2 :: ":"%char :: m1 :: m2 :: rest =>
      h ← numeral [h1; h2];
      mi ← numeral [m1; m2];
      match rest with
      | [] => Some (h, mi, 0%Z)
      | [":"%char; s1; s2] => s ← numeral [s1; s2]; Some (h, mi, s)
      | _ => None
      end
  | _ => None
  end.

Definition iso_datetime (s : string) : option Z :=
  match list_ascii_of_string s with
  | y1 :: y2 :: y3 :: y4 :: "-"%char :: m1 :: m2 :: "-"%char :: d1 :: d2 :: rest =>
      y ← numeral [y1; y2; y3; y4];
      mo ← numeral [m1; m2];
      d ← numeral [d1; d2];
      '(h, mi, sec) ← iso_time rest;
      time_point y mo d h mi sec
  | _ => None
  end.

(** The characters before the first point, and those after it. *)
Fixpoint split_point (l : list ascii) : list ascii * list ascii :=
  match l with
  | [] => ([], [])
  | c :: l' =>
      if bool_decide (c = "."%char) then ([], l')
      else let '(a, b) := split_point l' in (c :: a, b)
  end.

(** Digits, with an optional sign and an optional fraction. *)
Definition decimal (s : string) : option R :=
  let l := list_ascii_of_string s in
  let '(neg, l) :=
    match l with
    | "-"%char :: l' => (true, l')
    | "+"%char :: l' => (false, l')
    | _ => (false, l)
    end in
  let '(int_part, frac_part) := split_point l in
  n ← numeral (int_part ++ frac_part);
  let r := (IZR n / 10 ^ length frac_part)%R in
  Some (if neg then (- r)%R else r).

Definition ref_runtime : PyRuntime :=
  {| float_of_str := decimal; fromisoformat := iso_datetime |}.



(** ** Notions the statements use *)

(** The order a result is sorted by: both entries have a distance and the
    first is not farther than the second. *)
Definition dist_le (p q : place) : Prop :=
  match p_distance_km p, p_distance_km q with
  | Some a, Some b => (a <= b)%R
  | _, _ => False
  end.

(** The name an element carries: [tags.get("name")]. *)
Definition el_name (el : element) : option string :=
  default ∅ (el_tags el) !! "name".

(** The entry line 197 appends for an element named [name] at [(plat, plon)]. *)
Definition entry (lat lon : R) (el : element) (name : string) (plat plon : option R)
  : place :=
  {| p_name := name;
     p_tags := default ∅ (el_tags el);
     p_type := default "other" (primary_tag (default ∅ (el_tags el)) tag_keys);
     p_lat := plat;
     p_lon := plon;
     p_distance_km := distance_of lat lon plat plon |}.

(** Invariant of the loop: the names of [places] are distinct and recorded in
    [seen_names]. *)
Definition scan_inv (st : list place * gset string) : Prop :=
  NoDup (p_name <$> st.1) /\ (forall p, p ∈ st.1 -> p_name p ∈ st.2).

(** Invariant of the loop: every entry carries the distance line 188
    computes from its position. *)
Definition distance_inv (lat lon : R) (st : list place * gset string) : Prop :=
  Forall (fun p => p_distance_km p = distance_of lat lon (p_lat p) (p_lon p)) st.1.




(** The same providers with another weather provider, or another map-feature
    provider. *)
Definition with_open_meteo (P : providers) (f : R -> R -> option meteo) : providers :=
  {| nominatim := nominatim P; open_meteo := f; overpass := overpass P |}.

Definition with_overpass (P : providers) (f : R -> R -> Z -> option (list element))
  : providers :=
  {| nominatim := nominatim P; open_meteo := open_meteo P; overpass := f |}.

(** ** Sample data *)

(** The hourly series of the specification's alignment example. *)
Definition sample_times : list string := ["2024-01-01T10:00"; "2024-01-01T11:00"].
Definition sample_probs : list jval := [JInt 10; JInt 80].


(** A node on the equator: its position is present, its latitude is 0. *)
Definition equator_node : element :=
  {| el_type := Some "node";
     el_lat := Some 0%R;
     el_lon := Some 10%R;
     el_center := None;
     el_tags := Some {[ "name" := "Equator Marker" ]} |}.

(** Two features near Bangalore: a museum node and a park given as a way. *)
Definition museum_node : element :=
  {| el_type := Some "node";
     el_lat := Some (1298 / 100)%R;
     el_lon := Some (7760 / 100)%R;
     el_center := None;
     el_tags := Some (<[ "name" := "Government Museum" ]> {[ "tourism" := "museum" ]}) |}.

Definition park_way : element :=
  {| el_type := Some "way";
     el_lat := None;
     el_lon := None;
     el_center := Some {| c_lat := Some (1297 / 100)%R; c_lon := Some (7759 / 100)%R |};
     el_tags := Some (<[ "name" := "Cubbon Park" ]> {[ "leisure" := "park" ]}) |}.

(** A top candidate with a display name, and one without. *)
Definition bangalore_item : dict :=
  <[ "lat" := JStr "12.97" ]>
    (<[ "lon" := JStr "77.59" ]> {[ "display_name" := JStr "Bengaluru, Karnataka, India" ]}).

Definition bare_item : dict :=
  <[ "lat" := JStr "12.97" ]> {[ "lon" := JStr "77.59" ]}.

(** A current-conditions block, and a response whose hourly arrays are empty. *)
Definition sample_current : dict :=
  <[ "temperature" := JInt 24 ]>
    (<[ "windspeed" := JInt 9 ]> {[ "time" := JStr "2024-01-01T10:40" ]}).

Definition meteo_without_hours : meteo :=
  {| m_current_weather := Some sample_current;
     m_hourly := Some {| h_time := []; h_precipitation_probability := [] |} |}.

(** The geocoder knows no such place; nothing else answers. *)
Definition nowhere : providers :=
  {| nominatim := fun _ _ => Some [];
     open_meteo := fun _ _ => None;
     overpass := fun _ _ _ => None |}.

(** The geocoder answers, both soft dependencies fail. *)
Definition only_geocoder : providers :=
  {| nominatim := fun _ _ => Some [bangalore_item];
     open_meteo := fun _ _ => None;
     overpass := fun _ _ _ => None |}.

(** Every provider answers; the top candidate has no display name. *)
Definition all_up : providers :=
  {| nominatim := fun _ _ => Some [bare_item];
     open_meteo := fun _ _ => Some meteo_without_hours;
     overpass := fun _ _ _ => Some [park_way; museum_node; park_way] |}.

(** ** The page (source lines 249-305) *)

(** What the page needs from the Python runtime to print: [s.strip()],
    [str(x)] of a float, and [format(x, ".nf")]. *)
Class PyFormat : Type := {
  str_strip : string -> string;
  float_repr : R -> string;
  float_fixed : nat -> R -> string
}.

(** The values the form widgets return in one run of the script. *)
Record form : Type := {
  place_input : string;
  do_weather : bool;
  do_places : bool;
  submitted : bool
}.

(** The display calls of one run, in order. *)
Inductive call : Type :=
  | StTitle (body : string)
  | StWrite (body : string)
  | StMarkdown (body : string)
  | StError (body : string)
  | StSuccess (body : string)
  | StCaption (body : string)
  | StWarning (body : string)
  | StInfo (body : string)
  | StSpinner (text : string)
  | StExpander (label : string)
  | StJson (name type : string) (lat lon : option R) (tags : gmap string string).

Section Page.
Context `{PyRuntime} `{PyFormat}.
Variable P : providers.

(** [str(v)], as an f-string field prints a value. *)
Definition py_str (v : jval) : string :=
  match v with
  | JNull => "None"
  | JInt z => pretty z
  | JFloat r => float_repr r
  | JStr s => s
  end.

(** Lines 250-252. *)
Definition header : list call :=
  [ StTitle "Tourism AI Agent — Parent & Child Agents";
    StWrite "Enter a place (city / town / landmark). The app will geocode the place, fetch current weather (Open-Meteo) and suggest up to 5 nearby tourist places (Overpass)." ].

(** Lines 275-292. *)
Definition render_weather (weather : option weather) : list call :=
  match weather with
  | Some weather =>
      let temp := w_temperature weather in
      let precip := w_precip_prob weather in
      let wtime := w_time weather in
      StMarkdown "**Weather**" ::
      (if decide (temp <> JNull) then
         let text := "Currently " +:+ py_str temp +:+ "°C" in
         let text :=
           match precip with
           | Some precip => text +:+ " with a chance of " +:+ pretty precip +:+ "% to rain."
           | None => text +:+ "."
           end in
         [ StSuccess text; StCaption ("Data time: " +:+ py_str wtime) ]
       else [ StWarning "Weather data not available." ])
  | None => [ StWarning "Weather data not available (Open-Meteo lookup failed)." ]
  end.

(** Lines 299-301: the line of the [i]-th place. *)
Definition place_line (i : nat) (p : place) : string :=
  let dist_str :=
    match p_distance_km p with
    | Some dist => " — " +:+ float_fixed 1 dist +:+ " km"
    | None => ""
    end in
  pretty i +:+ ". **" +:+ p_name p +:+ "**" +:+ dist_str +:+ " — " +:+ p_type p.

(** Lines 298-303: one turn of the loop over [enumerate(places, start=1)];
    the expander object is truthy, so [st.json] is always called. *)
Definition render_place (i : nat) (p : place) : list call :=
  [ StWrite (place_line (S i) p);
    StExpander "Details";
    StJson (p_name p) (p_type p) (p_lat p) (p_lon p) (p_tags p) ].

(** Lines 295-305. *)
Definition render_places (places : list place) : list call :=
  StMarkdown "**Suggested places to visit**" ::
  match places with
  | [] => [ StInfo "No tourist places found nearby via Overpass API." ]
  | _ :: _ => concat (imap render_place places)
  end.

(** Lines 267-305. *)
Definition render (result : plan) (do_weather do_places : bool) : list call :=
  match result with
  | PlanError error => [ StError error ]
  | PlanOk place weather places =>
      [ StMarkdown ("### Results for **" +:+ py_str (pi_display_name place) +:+ "**");
        StWrite ("Coordinates: " +:+ float_fixed 6 (pi_lat place) +:+ ", "
                 +:+ float_fixed 6 (pi_lon place)) ]
      ++ (if do_weather then render_weather weather else [])
      ++ (if do_places then render_places places else [])
  end.

(** One run of the script. *)
Definition page (f : form) : Net (list call) :=
  if submitted f then
    if bool_decide (place_input f = "") || bool_decide (str_strip (place_input f) = "")
    then net_ret (header ++ [ StError "Please enter a place name." ])
    else
      (result <~ plan_for_place P (str_strip (place_input f)) ;;
       net_ret (header ++ [ StSpinner "Looking up the place and planning..." ]
                ++ render result (do_weather f) (do_places f)))%net
  else net_ret header.

End Page.

(** The form with other checkbox values. *)
Definition with_toggles (f : form) (weather places : bool) : form :=
  {| place_input := place_input f;
     do_weather := weather;
     do_places := places;
     submitted := submitted f |}.

(** The input is empty or blank (line 261). *)
Definition blank `{PyFormat} (s : string) : Prop :=
  s = "" \/ str_strip s = "".

(** ** Notions the further properties use *)

(** The element an entry was built from: the first element of the response
    that carries the entry's name. *)
Definition built_from (lat lon : R) (elems : list element) (p : place) : Prop :=
  exists (i : nat) (el : element) (plat plon : option R),
    elems !! i = Some el
    /\ el_name el = Some (p_name p)
    /\ p_name p <> ""
    /\ (forall (j : nat) (el' : element),
          (j < i)%nat -> elems !! j = Some el' -> el_name el' <> Some (p_name p))
    /\ coordinates el = Some (plat, plon)
    /\ p = entry lat lon el (p_name p) plat plon.

(** After the loop over [elems]: the recorded names are the non-empty names
    met so far, and every entry was built from the first element carrying its
    name. *)
Definition provenance_inv (lat lon : R) (elems : list element)
    (st : list place * gset string) : Prop :=
  (forall n : string,
      n ∈ st.2 <-> n <> "" /\ exists el, el ∈ elems /\ el_name el = Some n)
  /\ Forall (built_from lat lon elems) st.1.

(** ** Further sample data *)

(** A runtime that parses nothing. *)
Definition no_parser : PyRuntime :=
  {| float_of_str := fun _ => None; fromisoformat := fun _ => None |}.

(** ASCII white space: space, tab, line feed, vertical tab, form feed,
    carriage return. *)
Definition is_space (c : ascii) : bool :=
  let n := nat_of_ascii c in
  (n =? 32)%nat || ((9 <=? n)%nat && (n <=? 13)%nat).

Fixpoint lstrip (l : list ascii) : list ascii :=
  match l with
  | c :: l' => if is_space c then lstrip l' else l
  | [] => []
  end.

Definition strip_spaces (s : string) : string :=
  string_of_list_ascii
    (reverse (lstrip (reverse (lstrip (list_ascii_of_string s))))).

(** A formatter for pages that print no float: it strips ASCII white space
    and prints no digits of a real number. *)
Definition plain_format : PyFormat :=
  {| str_strip := strip_spaces;
     float_repr := fun _ => "";
     float_fixed := fun _ _ => "" |}.

Definition current_without_time : dict :=
  <[ "temperature" := JInt 24 ]> {[ "windspeed" := JInt 9 ]}.

Definition meteo_without_time : meteo :=
  {| m_current_weather := Some current_without_time;
     m_hourly := Some {| h_time := sample_times;
                         h_precipitation_probability := sample_probs |} |}.

(** A node without coordinates. *)
Definition bare_node : element :=
  {| el_type := Some "node";
     el_lat := None;
     el_lon := None;
     el_center := None;
     el_tags := Some (<[ "name" := "Old Well" ]> {[ "historic" := "well" ]}) |}.

Definition bare_entry : place :=
  {| p_name := "Old Well";
     p_tags := <[ "name" := "Old Well" ]> {[ "historic" := "well" ]};
     p_type := "historic=well";
     p_lat := None;
     p_lon := None;
     p_distance_km := None |}.

(** A way without a centre, and a node of the same name after it. *)
Definition lake_way : element :=
  {| el_type := Some "way";
     el_lat := None;
     el_lon := None;
     el_center := None;
     el_tags := Some {[ "name" := "Lake" ]} |}.

Definition lake_node : element :=
  {| el_type := Some "node";
     el_lat := Some (1298 / 100)%R;
     el_lon := Some (7760 / 100)%R;
     el_center := None;
     el_tags := Some {[ "name" := "Lake" ]} |}.

(** Providers whose map-feature provider returns the given elements and
    whose weather provider returns the given response. *)
Definition answering (elems : list element) (data : option meteo) : providers :=
  {| nominatim := fun _ _ => Some [bangalore_item];
     open_meteo := fun _ _ => data;
     overpass := fun _ _ _ => Some elems |}.

(** * Properties *)

(** ** The distance utility *)

Section DistanceFacts.
Local Open Scope R_scope.

Lemma haversine_hav_a lat1 lon1 lat2 lon2 :
  haversine lat1 lon1 lat2 lon2 = 2 * 6371 * asin (sqrt (hav_a lat1 lon1 lat2 lon2)).
Proof. reflexivity. Qed.


Lemma sin_half_sq_swap x y :
  sin (radians (x - y) / 2) ^ 2 = sin (radians (y - x) / 2) ^ 2.
Proof.
  replace (radians (x - y) / 2) with (- (radians (y - x) / 2))
    by (unfold radians; lra).
  rewrite sin_neg. ring.
Qed.

Lemma hav_a_sym lat1 lon1 lat2 lon2 :
  hav_a lat1 lon1 lat2 lon2 = hav_a lat2 lon2 lat1 lon1.
Proof.
  unfold hav_a.
  rewrite (sin_half_sq_swap lat2 lat1), (sin_half_sq_swap lon2 lon1). ring.
Qed.

Lemma hav_a_same lat lon : hav_a lat lon lat lon = 0.
Proof.
  unfold hav_a, radians.
  replace ((lat - lat) * (PI / 180) / 2) with 0 by lra.
  replace ((lon - lon) * (PI / 180) / 2) with 0 by lra.
  rewrite sin_0. ring.
Qed.

(** C7: for all coordinates a and b (real numbers here), the distance from a
    to b equals the distance from b to a, and the distance from a to a is 0. *)
Theorem haversine_symmetric_and_zero_on_diagonal :
  forall lat1 lon1 lat2 lon2 : R,
    haversine lat1 lon1 lat2 lon2 = haversine lat2 lon2 lat1 lon1
    /\ haversine lat1 lon1 lat1 lon1 = 0.
Proof.
  intros. rewrite !haversine_hav_a. split.
  - now rewrite hav_a_sym.
  - rewrite hav_a_same, sqrt_0, asin_0. ring.
Qed.




End DistanceFacts.

(** ** The weather lookup *)

Section ListFacts.
Context {A : Type} `{EqDecision A}.

(** [l.index(x)] is the first position of [x]. *)
Lemma py_index_Some (x : A) (l : list A) (i : nat) :
  py_index x l = Some i <->
  l !! i = Some x /\ (forall j : nat, (j < i)%nat -> l !! j <> Some x).
Proof.
  revert i. induction l as [|y l IH]; intros i; simpl.
  - split; [discriminate | intros [Hl _]; discriminate].
  - destruct (decide (x = y)) as [->|Hne].
    + split.
      * intros [= <-]. split; [reflexivity | intros j Hj; lia].
      * intros [Hi Hfirst]. destruct i as [|i]; [reflexivity|].
        exfalso. apply (Hfirst 0%nat); [lia | reflexivity].
    + destruct i as [|i]; simpl.
      * split.
        -- destruct (py_index x l); discriminate.
        -- intros [[= ->] _]. contradiction.
      * split.
        -- intros Hidx. destruct (py_index x l) as [k|] eqn:Hk; [|discriminate].
           injection Hidx as ->. destruct (proj1 (IH i) eq_refl) as [Hi Hfirst].
           split; [exact Hi|]. intros [|j] Hj; simpl.
           ++ intros [= ->]. contradiction.
           ++ apply Hfirst. lia.
        -- intros [Hi Hfirst].
           rewrite (proj2 (IH i)); [reflexivity|].
           split; [exact Hi|]. intros j Hj. apply (Hfirst (S j)). lia.
Qed.


End ListFacts.



(** *** Rounding of [total_seconds] *)

Section RoundingFacts.
Local Open Scope Z_scope.








End RoundingFacts.

Section WeatherFacts.
Context `{PyRuntime}.





(** The snapshot of a response with a current-conditions block. *)
Lemma weather_of_block (data : meteo) (curr : dict) :
  m_current_weather data = Some curr -> curr <> ∅ ->
  weather_of (Some data)
  = Some {| w_temperature := py_get curr "temperature";
            w_windspeed := py_get curr "windspeed";
            w_time := py_get curr "time";
            w_precip_prob := precip_of curr (m_hourly data);
            w_raw := data |}.
Proof.
  intros Hcurr Hne. unfold weather_of. rewrite Hcurr.
  now rewrite decide_False by exact Hne.
Qed.

End WeatherFacts.

Section WeatherTheorems.
Context `{PyRuntime}.



End WeatherTheorems.





(** ** Geocoding and the orchestrator *)

Section OrchestratorFacts.
Context `{PyRuntime}.

Lemma geocode_place_run (P : providers) (place : string) (limit : Z) (log : list request) :
  geocode_place P place limit log
  = (geocode_of place (nominatim P place limit), log ++ [NominatimSearch place limit]).
Proof. reflexivity. Qed.

Lemma get_weather_run (P : providers) (lat lon : R) (log : list request) :
  get_weather P lat lon log
  = (weather_of (open_meteo P lat lon), log ++ [OpenMeteoForecast lat lon]).
Proof. reflexivity. Qed.

Lemma find_places_run (P : providers) (lat lon : R) (radius_m max_places : Z)
    (log : list request) :
  find_places P lat lon radius_m max_places log
  = (places_of lat lon (overpass P lat lon radius_m) max_places,
     log ++ [OverpassQuery lat lon radius_m]).
Proof. reflexivity. Qed.

(** The run of [plan_for_place] after a successful geocoding. *)
Lemma plan_for_place_run (P : providers) (place_query : string) (log : list request)
    (g : geocode) :
  geocode_of place_query (nominatim P place_query 1) = Some g ->
  plan_for_place P place_query log
  = (PlanOk {| pi_query := place_query;
               pi_display_name := g_display_name g;
               pi_lat := g_lat g;
               pi_lon := g_lon g |}
            (weather_of (open_meteo P (g_lat g) (g_lon g)))
            (places_of (g_lat g) (g_lon g) (overpass P (g_lat g) (g_lon g) 20000) 5),
     log ++ [NominatimSearch place_query 1] ++ [OpenMeteoForecast (g_lat g) (g_lon g)]
         ++ [OverpassQuery (g_lat g) (g_lon g) 20000]).
Proof.
  intros Hgeo. unfold plan_for_place, net_bind. rewrite geocode_place_run, Hgeo.
  rewrite get_weather_run, find_places_run. unfold net_ret.
  rewrite <- !app_assoc. reflexivity.
Qed.

(** C10: when the top candidate of the geocoding provider has a parseable
    latitude and longitude and no display name, the resolver succeeds and the
    display name it returns is the query string. *)
Theorem geocode_display_name_falls_back_to_query
    (P : providers) (place : string) (limit : Z) (log : list request)
    (item : dict) (rest : list dict) (lat_v lon_v : jval) (lat lon : R) :
  nominatim P place limit = Some (item :: rest) ->
  item !! "lat" = Some lat_v -> py_float lat_v = Some lat ->
  item !! "lon" = Some lon_v -> py_float lon_v = Some lon ->
  item !! "display_name" = None ->
  (geocode_place P place limit log).1
  = Some {| g_lat := lat; g_lon := lon; g_display_name := JStr place; g_raw := item |}.
Proof.
  intros Hresp Hlat_v Hlat Hlon_v Hlon Hname.
  rewrite geocode_place_run, Hresp. simpl.
  rewrite Hlat_v. simpl. rewrite Hlat. simpl.
  rewrite Hlon_v. simpl. rewrite Hlon. simpl.
  now rewrite Hname.
Qed.

(** C1: if the geocoding resolver returns [None], [plan_for_place] returns the
    failure result ([ok] is false) whose message quotes the query between
    "I don't know this place exists: '" and "'. Please check spelling or try a
    different place.", and the only request sent is the geocoding one: neither
    the weather provider nor the map-feature provider is called. *)
Theorem plan_not_found (P : providers) (place_query : string) (log : list request) :
  (geocode_place P place_query 1 log).1 = None ->
  plan_for_place P place_query log
  = (PlanError ("I don't know this place exists: '" +:+ place_query
                +:+ "'. Please check spelling or try a different place."),
     log ++ [NominatimSearch place_query 1])
  /\ ok (plan_for_place P place_query log).1 = false.
Proof.
  intros Hgeo. rewrite geocode_place_run in Hgeo. simpl in Hgeo.
  unfold plan_for_place, net_bind. rewrite geocode_place_run, Hgeo.
  split; reflexivity.
Qed.

(** C2: if geocoding succeeds, [plan_for_place] returns a success result
    ([ok] is true) whatever the two soft dependencies do.  Its weather is the
    snapshot of the weather provider's response alone, [None] when that
    provider fails; its places are computed from the map-feature provider's
    response alone, empty when that provider fails; replacing one of the two
    providers changes neither the other field nor the place. *)
Theorem plan_succeeds_when_geocoded
    (P : providers) (place_query : string) (log : list request) (g : geocode) :
  (geocode_place P place_query 1 log).1 = Some g ->
  let lat := g_lat g in
  let lon := g_lon g in
  let info := {| pi_query := place_query;
                 pi_display_name := g_display_name g;
                 pi_lat := lat;
                 pi_lon := lon |} in
  exists (w : option weather) (ps : list place),
    (plan_for_place P place_query log).1 = PlanOk info w ps
    /\ ok (plan_for_place P place_query log).1 = true
    /\ w = weather_of (open_meteo P lat lon)
    /\ ps = places_of lat lon (overpass P lat lon 20000) 5
    /\ (open_meteo P lat lon = None -> w = None)
    /\ (overpass P lat lon 20000 = None -> ps = [])
    /\ (forall f, exists w',
          (plan_for_place (with_open_meteo P f) place_query log).1 = PlanOk info w' ps)
    /\ (forall f, exists ps',
          (plan_for_place (with_overpass P f) place_query log).1 = PlanOk info w ps').
Proof.
  intros Hgeo lat lon info. rewrite geocode_place_run in Hgeo. simpl in Hgeo.
  exists (weather_of (open_meteo P lat lon)),
         (places_of lat lon (overpass P lat lon 20000) 5).
  rewrite (plan_for_place_run P place_query log g Hgeo). simpl.
  split; [reflexivity|]. split; [reflexivity|].
  split; [reflexivity|]. split; [reflexivity|].
  split; [now intros ->|]. split; [now intros ->|]. split.
  - intros f. eexists.
    rewrite (plan_for_place_run (with_open_meteo P f) place_query log g Hgeo).
    reflexivity.
  - intros f. eexists.
    rewrite (plan_for_place_run (with_overpass P f) place_query log g Hgeo).
    reflexivity.
Qed.

End OrchestratorFacts.

Lemma geocode_display_name_falls_back_to_query_witness :
  (@geocode_place ref_runtime all_up "Bangalore" 1 []).1
  = Some {| g_lat := (1297 / 10 ^ 2)%R;
            g_lon := (7759 / 10 ^ 2)%R;
            g_display_name := JStr "Bangalore";
            g_raw := bare_item |}.
Proof.
  apply (@geocode_display_name_falls_back_to_query ref_runtime all_up "Bangalore" 1 []
           bare_item [] (JStr "12.97") (JStr "77.59")); reflexivity.
Defined.

Lemma plan_not_found_witness :
  @plan_for_place ref_runtime nowhere "Nowhere12345xyz" []
  = (PlanError "I don't know this place exists: 'Nowhere12345xyz'. Please check spelling or try a different place.",
     [NominatimSearch "Nowhere12345xyz" 1])
  /\ ok (@plan_for_place ref_runtime nowhere "Nowhere12345xyz" []).1 = false.
Proof.
  apply (@plan_not_found ref_runtime nowhere "Nowhere12345xyz" []). reflexivity.
Defined.

Lemma plan_succeeds_when_geocoded_witness :
  exists (w : option weather) (ps : list place),
    (@plan_for_place ref_runtime only_geocoder "Bangalore" []).1
    = PlanOk {| pi_query := "Bangalore";
                pi_display_name := JStr "Bengaluru, Karnataka, India";
                pi_lat := (1297 / 10 ^ 2)%R;
                pi_lon := (7759 / 10 ^ 2)%R |} w ps
    /\ w = None /\ ps = [].
Proof.
  destruct (@plan_succeeds_when_geocoded ref_runtime only_geocoder "Bangalore" []
              {| g_lat := (1297 / 10 ^ 2)%R;
                 g_lon := (7759 / 10 ^ 2)%R;
                 g_display_name := JStr "Bengaluru, Karnataka, India";
                 g_raw := bangalore_item |} eq_refl)
    as (w & ps & Hplan & _ & _ & _ & Hw & Hps & _).
  exists w, ps. split; [exact Hplan|]. split; [now apply Hw | now apply Hps].
Defined.

(** ** The points-of-interest finder *)

Section LoopFacts.
Variables lat lon : R.

(** The three ways one turn of the loop ends: [continue] before the name is
    recorded, [continue] after it, or [places.append]. *)
Lemma scan_cases st el :
  scan lat lon st el = st
  \/ exists name, el_name el = Some name /\ name <> "" /\ (name ∉ st.2)
       /\ (scan lat lon st el = (st.1, st.2 ∪ {[ name ]})
           \/ exists plat plon,
                coordinates el = Some (plat, plon)
                /\ scan lat lon st el
                   = (st.1 ++ [entry lat lon el name plat plon], st.2 ∪ {[ name ]})).
Proof.
  destruct st as [places seen]. unfold scan, el_name, entry.
  destruct (default ∅ (el_tags el) !! "name") as [name|] eqn:Hname; simpl; [|auto].
  destruct (decide (name <> "")) as [Hne|He].
  - rewrite bool_decide_eq_true_2 by exact Hne. simpl.
    destruct (decide (name ∈ seen)) as [Hin|Hnotin]; [auto|].
    right. exists name. split; [reflexivity|]. split; [exact Hne|].
    split; [exact Hnotin|].
    destruct (coordinates el) as [[plat plon]|]; [|auto].
    right. exists plat, plon. split; reflexivity.
  - rewrite bool_decide_eq_false_2 by exact He. auto.
Qed.

Lemma scan_appends st el name plat plon :
  el_name el = Some name -> name <> "" -> name ∉ st.2 ->
  coordinates el = Some (plat, plon) ->
  scan lat lon st el = (st.1 ++ [entry lat lon el name plat plon], st.2 ∪ {[ name ]}).
Proof.
  intros Hname Hne Hnew Hc. destruct st as [places seen].
  unfold scan, entry. unfold el_name in Hname. rewrite Hname. simpl.
  rewrite bool_decide_eq_true_2 by exact Hne. simpl.
  rewrite decide_False by exact Hnew. now rewrite Hc.
Qed.

Lemma foldl_scan_inv (I : list place * gset string -> Prop) elems st :
  (forall st el, I st -> I (scan lat lon st el)) ->
  I st -> I (foldl (scan lat lon) st elems).
Proof.
  intros Hstep. revert st.
  induction elems as [|el elems IH]; intros st Hst; simpl; [exact Hst|].
  apply IH, Hstep, Hst.
Qed.

Lemma scan_inv_step st el : scan_inv st -> scan_inv (scan lat lon st el).
Proof.
  intros [Hnd Hseen].
  destruct (scan_cases st el)
    as [->|(name & _ & _ & Hnew & [->|(plat & plon & _ & ->)])];
    [split; assumption| |]; split; simpl.
  - exact Hnd.
  - intros p Hp. apply elem_of_union_l. now apply Hseen.
  - rewrite fmap_app. apply NoDup_app. split; [exact Hnd|]. split.
    + intros x Hx Hx'. apply list_elem_of_fmap in Hx as (p & -> & Hp).
      apply list_elem_of_singleton in Hx'. simpl in Hx'.
      apply Hseen in Hp. congruence.
    + apply NoDup_singleton.
  - intros p Hp. apply elem_of_app in Hp as [Hp|Hp].
    + apply elem_of_union_l. now apply Hseen.
    + apply list_elem_of_singleton in Hp as ->. simpl.
      apply elem_of_union_r. now apply elem_of_singleton.
Qed.

(** Deduplication: the names collected by the loop are distinct. *)
Lemma collect_NoDup elems : NoDup (p_name <$> collect lat lon elems).
Proof.
  apply (foldl_scan_inv scan_inv elems ([], ∅) scan_inv_step). split; simpl.
  - apply NoDup_nil_2.
  - intros p Hp. inversion Hp.
Qed.

Lemma distance_inv_step st el :
  distance_inv lat lon st -> distance_inv lat lon (scan lat lon st el).
Proof.
  unfold distance_inv. intros Hall.
  destruct (scan_cases st el)
    as [->|(name & _ & _ & _ & [->|(plat & plon & _ & ->)])]; simpl; try assumption.
  apply Forall_app. split; [exact Hall|]. apply Forall_singleton. reflexivity.
Qed.

Lemma collect_distance elems :
  Forall (fun p => p_distance_km p = distance_of lat lon (p_lat p) (p_lon p))
         (collect lat lon elems).
Proof.
  apply (foldl_scan_inv (distance_inv lat lon) elems ([], ∅) distance_inv_step).
  apply Forall_nil_2.
Qed.

(** The entries keep the order of the provider's elements. *)
Lemma foldl_scan_order elems st :
  exists k, p_name <$> (foldl (scan lat lon) st elems).1 = (p_name <$> st.1) ++ k
            /\ k `sublist_of` omap el_name elems.
Proof.
  revert st. induction elems as [|el elems IH]; intros st; simpl.
  - exists []. split; [now rewrite app_nil_r | constructor].
  - destruct (IH (scan lat lon st el)) as (k & Hk & Hsub).
    assert (Hskip : k `sublist_of` omap el_name (el :: elems)).
    { simpl. destruct (el_name el); [now apply sublist_cons | exact Hsub]. }
    destruct (scan_cases st el)
      as [Heq|(name & Hname & _ & _ & [Heq|(plat & plon & _ & Heq)])].
    + exists k. split; [|exact Hskip].
      rewrite Hk. now rewrite Heq.
    + exists k. split; [|exact Hskip].
      rewrite Hk. now rewrite Heq.
    + exists (name :: k). split.
      * rewrite Hk, Heq. simpl. now rewrite fmap_app, <- app_assoc.
      * simpl. rewrite Hname. now apply sublist_skip.
Qed.

Lemma collect_order elems :
  p_name <$> collect lat lon elems `sublist_of` omap el_name elems.
Proof.
  destruct (foldl_scan_order elems ([], ∅)) as (k & Hk & Hsub).
  unfold collect. now rewrite Hk.
Qed.

End LoopFacts.

Section RankFacts.

Lemma filter_ext_in {A} (P Q : A -> Prop)
    `{!forall x, Decision (P x), !forall x, Decision (Q x)} (l : list A) :
  (forall x, x ∈ l -> P x <-> Q x) -> filter P l = filter Q l.
Proof.
  induction l as [|x l IH]; intros Hiff; [reflexivity|].
  assert (Hl : filter P l = filter Q l).
  { apply IH. intros y Hy. apply Hiff. now right. }
  rewrite !filter_cons, Hl.
  pose proof (Hiff x (list_elem_of_here x l)) as Hx.
  destruct (decide (P x)) as [HP|HP]; destruct (decide (Q x)) as [HQ|HQ];
    try reflexivity; tauto.
Qed.

Lemma insert_by_distance_perm x l : insert_by_distance x l ≡ₚ x :: l.
Proof.
  induction l as [|y l IH]; simpl; [reflexivity|].
  destruct (dist_lt y x); [|reflexivity].
  rewrite IH. apply perm_swap.
Qed.

Lemma sorted_by_distance_perm l : sorted_by_distance l ≡ₚ l.
Proof.
  induction l as [|x l IH]; simpl; [reflexivity|].
  rewrite insert_by_distance_perm. now rewrite IH.
Qed.

Lemma dist_le_trans p q r : dist_le p q -> dist_le q r -> dist_le p r.
Proof.
  unfold dist_le.
  destruct (p_distance_km p), (p_distance_km q), (p_distance_km r);
    try tauto. apply Rle_trans.
Qed.

Lemma insert_by_distance_sorted x l :
  is_Some (p_distance_km x) ->
  Forall (fun p => is_Some (p_distance_km p)) l ->
  StronglySorted dist_le l ->
  StronglySorted dist_le (insert_by_distance x l).
Proof.
  intros [a Ha] Hall Hsorted.
  induction Hsorted as [|y l Hsorted IH Hy]; simpl.
  - repeat constructor.
  - apply Forall_cons in Hall as [[b Hb] Hall].
    unfold dist_lt. rewrite Hb, Ha.
    destruct (decide (b < a)%R) as [Hlt|Hge].
    + rewrite bool_decide_eq_true_2 by exact Hlt.
      apply StronglySorted_cons. split; [|now apply IH].
      rewrite insert_by_distance_perm. apply Forall_cons. split; [|exact Hy].
      unfold dist_le. rewrite Hb, Ha. lra.
    + rewrite bool_decide_eq_false_2 by exact Hge.
      assert (Hxy : dist_le x y) by (unfold dist_le; rewrite Ha, Hb; lra).
      apply StronglySorted_cons. split; [|now constructor].
      apply Forall_cons. split; [exact Hxy|].
      eapply Forall_impl; [exact Hy|]. intros z Hz.
      now apply (dist_le_trans x y z).
Qed.

Lemma sorted_by_distance_sorted l :
  Forall (fun p => is_Some (p_distance_km p)) l ->
  StronglySorted dist_le (sorted_by_distance l).
Proof.
  induction 1 as [|x l Hx Hall IH]; simpl; [constructor|].
  apply insert_by_distance_sorted; [exact Hx| |exact IH].
  now rewrite sorted_by_distance_perm.
Qed.

(** The entries line 210 keeps are the entries without a distance. *)
Lemma remaining_eq (places : list place) :
  filter (fun p => p ∉ sorted_by_distance
                        (filter (fun p => is_Some (p_distance_km p)) places)) places
  = filter (fun p => p_distance_km p = None) places.
Proof.
  apply filter_ext_in. intros p Hp.
  rewrite sorted_by_distance_perm, list_elem_of_filter. split.
  - intros Hnot. destruct (p_distance_km p) as [d|] eqn:Hd; [|reflexivity].
    exfalso. apply Hnot. split; [now exists d | exact Hp].
  - intros Hnone [[d Hd] _]. congruence.
Qed.

(** For a limit that is not negative, lines 206-213 sort the entries with a
    distance, append the others and cut at the limit: when the sorted part
    already fills the limit, the cut would drop the others anyway. *)
Lemma rank_eq (places : list place) (max_places : Z) :
  (0 <= max_places)%Z ->
  rank places max_places
  = take (Z.to_nat max_places)
         (sorted_by_distance (filter (fun p => is_Some (p_distance_km p)) places)
          ++ filter (fun p => p_distance_km p = None) places).
Proof.
  intros Hk. unfold rank, slice_to.
  rewrite (proj2 (Z.leb_le 0 max_places) Hk), remaining_eq.
  destruct (Z.ltb_spec (Z.of_nat (length (sorted_by_distance
              (filter (fun p => is_Some (p_distance_km p)) places)))) max_places)
    as [Hlt|Hge]; [reflexivity|].
  rewrite take_app_le by lia. reflexivity.
Qed.

Lemma slice_to_elem_of {A} (k : Z) (l : list A) (x : A) : x ∈ slice_to k l -> x ∈ l.
Proof.
  unfold slice_to. intros Hx.
  destruct (0 <=? k)%Z; eapply elem_of_sublist; eauto using sublist_take.
Qed.

Lemma rank_elem_of (places : list place) (k : Z) (p : place) :
  p ∈ rank places k -> p ∈ places.
Proof.
  unfold rank. intros Hp. apply slice_to_elem_of in Hp.
  assert (Hsorted : forall q,
    q ∈ sorted_by_distance (filter (fun p => is_Some (p_distance_km p)) places) ->
    q ∈ places).
  { intros q Hq. rewrite sorted_by_distance_perm in Hq.
    now apply list_elem_of_filter in Hq as [_ Hq]. }
  destruct (_ <? _)%Z; [|now apply Hsorted].
  apply elem_of_app in Hp as [Hp|Hp]; [now apply Hsorted|].
  now apply list_elem_of_filter in Hp as [_ Hp].
Qed.

Lemma ranked_names_NoDup (places : list place) :
  NoDup (p_name <$> places) ->
  NoDup (p_name <$> (sorted_by_distance (filter (fun p => is_Some (p_distance_km p)) places)
                     ++ filter (fun p => p_distance_km p = None) places)).
Proof.
  intros Hnd.
  rewrite (list_filter_iff (fun p => p_distance_km p = None)
             (fun p => ~ is_Some (p_distance_km p)) places)
    by (intros p; apply eq_None_not_Some).
  now rewrite sorted_by_distance_perm, filter_app_complement.
Qed.

Lemma distance_of_zero_latitude (lat lon plon : R) :
  distance_of lat lon (Some 0%R) (Some plon) = None.
Proof.
  unfold distance_of, truthy_num.
  rewrite bool_decide_eq_false_2 by (intros Hne; now apply Hne). reflexivity.
Qed.

End RankFacts.

Section PlacesTheorems.
Variable P : providers.

(** C3: for every provider response and every limit greater than 0, no two
    entries of the result of [find_places] have the same name, and the result
    has at most [max_places] entries. *)
Theorem find_places_unique_names_within_limit
    (lat lon : R) (radius_m max_places : Z) (log : list request) :
  (0 < max_places)%Z ->
  let result := (find_places P lat lon radius_m max_places log).1 in
  NoDup (p_name <$> result) /\ (Z.of_nat (length result) <= max_places)%Z.
Proof.
  intros Hk result. subst result. rewrite find_places_run. simpl.
  destruct (overpass P lat lon radius_m) as [elems|]; simpl.
  - rewrite rank_eq by lia. split.
    + rewrite fmap_take. eapply sublist_NoDup; [|apply sublist_take].
      apply ranked_names_NoDup, collect_NoDup.
    + rewrite length_take. lia.
  - split; [apply NoDup_nil_2 | lia].
Qed.

(** C4: for every provider response (and a limit that is not negative), the
    result of [find_places] is the entries that have a distance, in ascending
    order of distance, followed by the entries without a distance in the
    order of the provider's response, the whole cut at the limit. *)
Theorem find_places_sorted_then_rest
    (lat lon : R) (radius_m max_places : Z) (log : list request) (elems : list element) :
  (0 <= max_places)%Z ->
  overpass P lat lon radius_m = Some elems ->
  let places := collect lat lon elems in
  exists with_distance : list place,
    with_distance ≡ₚ filter (fun p => is_Some (p_distance_km p)) places
    /\ StronglySorted dist_le with_distance
    /\ (find_places P lat lon radius_m max_places log).1
       = take (Z.to_nat max_places)
              (with_distance ++ filter (fun p => p_distance_km p = None) places)
    /\ p_name <$> places `sublist_of` omap el_name elems.
Proof.
  intros Hk Hresp places.
  exists (sorted_by_distance (filter (fun p => is_Some (p_distance_km p)) places)).
  split; [apply sorted_by_distance_perm|].
  split; [apply sorted_by_distance_sorted, Forall_forall; intros p Hp;
          now apply list_elem_of_filter in Hp as [Hp _]|].
  split; [|apply collect_order].
  rewrite find_places_run, Hresp. simpl. now apply rank_eq.
Qed.

(** What line 188 does for every entry of a result: the distance is the
    haversine distance when latitude and longitude are present and both are
    not zero, and is absent otherwise. *)
Lemma find_places_distance
    (lat lon : R) (radius_m max_places : Z) (log : list request) (p : place) :
  p ∈ (find_places P lat lon radius_m max_places log).1 ->
  p_distance_km p = distance_of lat lon (p_lat p) (p_lon p).
Proof.
  rewrite find_places_run. simpl.
  destruct (overpass P lat lon radius_m) as [elems|]; simpl; [|inversion 1].
  intros Hp. apply rank_elem_of in Hp.
  pose proof (collect_distance lat lon elems) as Hall.
  rewrite Forall_forall in Hall. now apply Hall.
Qed.

End PlacesTheorems.

(** C9 fails on the code: a node on the equator has a position (latitude 0,
    longitude 10) and still gets no distance, because line 188 tests the
    truth value of the coordinates, and 0 is falsy.  The result of
    [find_places] around (1, 1) for this single node: *)
Theorem equator_node_gets_no_distance :
  places_of 1 1 (Some [equator_node]) 5
  = [ {| p_name := "Equator Marker";
         p_tags := {[ "name" := "Equator Marker" ]};
         p_type := "other";
         p_lat := Some 0%R;
         p_lon := Some 10%R;
         p_distance_km := None |} ].
Proof.
  unfold places_of, collect.
  change (foldl (scan 1 1) ([], ∅) [equator_node]) with (scan 1 1 ([], ∅) equator_node).
  rewrite (scan_appends 1 1 ([], ∅) equator_node "Equator Marker" (Some 0%R) (Some 10%R));
    [| reflexivity | discriminate | apply not_elem_of_empty | reflexivity ].
  unfold entry. rewrite distance_of_zero_latitude.
  rewrite rank_eq by lia. reflexivity.
Qed.

Lemma find_places_unique_names_within_limit_witness :
  NoDup (p_name <$> (find_places all_up (1297 / 100) (7759 / 100) 20000 5 []).1)
  /\ (Z.of_nat (length (find_places all_up (1297 / 100) (7759 / 100) 20000 5 []).1) <= 5)%Z.
Proof.
  apply (find_places_unique_names_within_limit all_up (1297 / 100) (7759 / 100) 20000 5 []).
  lia.
Defined.

Lemma find_places_sorted_then_rest_witness :
  exists with_distance : list place,
    with_distance ≡ₚ filter (fun p => is_Some (p_distance_km p))
                       (collect (1297 / 100) (7759 / 100) [park_way; museum_node; park_way])
    /\ StronglySorted dist_le with_distance
    /\ (find_places all_up (1297 / 100) (7759 / 100) 20000 5 []).1
       = take 5 (with_distance
                 ++ filter (fun p => p_distance_km p = None)
                      (collect (1297 / 100) (7759 / 100) [park_way; museum_node; park_way]))
    /\ p_name <$> collect (1297 / 100) (7759 / 100) [park_way; museum_node; park_way]
       `sublist_of` omap el_name [park_way; museum_node; park_way].
Proof.
  apply (find_places_sorted_then_rest all_up (1297 / 100) (7759 / 100) 20000 5 []
           [park_way; museum_node; park_way]).
  - lia.
  - reflexivity.
Defined.

(** ** Further checks of the model on the sample data *)

(** [sorted] is stable: entries at the same distance keep their order. *)
Lemma insert_by_distance_stable (d : R) (x : place) (l : list place) :
  filter (fun p => p_distance_km p = Some d) (insert_by_distance x l)
  = filter (fun p => p_distance_km p = Some d) (x :: l).
Proof.
  induction l as [|y l IH]; simpl; [reflexivity|].
  destruct (dist_lt y x) eqn:Hlt; [|reflexivity].
  rewrite (filter_cons _ y), IH, !filter_cons.
  destruct (decide (p_distance_km y = Some d)) as [Hy|Hy];
    destruct (decide (p_distance_km x = Some d)) as [Hx|Hx]; try reflexivity.
  exfalso. unfold dist_lt in Hlt. rewrite Hx, Hy in Hlt.
  apply bool_decide_eq_true_1 in Hlt. lra.
Qed.

Lemma sorted_by_distance_stable (d : R) (l : list place) :
  filter (fun p => p_distance_km p = Some d) (sorted_by_distance l)
  = filter (fun p => p_distance_km p = Some d) l.
Proof.
  induction l as [|x l IH]; simpl; [reflexivity|].
  rewrite insert_by_distance_stable, !filter_cons, IH. reflexivity.
Qed.

(** A timestamp half way between two hours takes the earlier one. *)
Lemma align_precip_tie :
  @align_precip ref_runtime (JStr "2024-01-01T10:30") sample_times sample_probs
  = Some 10%Z.
Proof. vm_compute. reflexivity. Qed.

(** Probabilities shorter than the timestamps, a [null] entry and a timestamp
    that does not parse all leave the probability absent. *)
(** [total_seconds] on a microsecond (the float [1e-06], whose significand
    is 4722366482869645 with exponent -72), on a second, and on the two
    differences of the long span, which are one float. *)
Lemma total_seconds_samples :
  total_seconds 1 = (4722366482869645 * 2 ^ 8)%Z
  /\ total_seconds 1000000 = (2 ^ 80)%Z
  /\ total_seconds (-1000000) = (- 2 ^ 80)%Z
  /\ total_seconds 18176796000000000 = (18176796000 * 2 ^ 80)%Z
  /\ total_seconds 18176795999999999 = (18176796000 * 2 ^ 80)%Z.
Proof. repeat split; vm_compute; reflexivity. Qed.

Lemma align_precip_absent :
  @align_precip ref_runtime (JStr "2024-01-01T11:00") sample_times [JInt 10] = None
  /\ @align_precip ref_runtime (JStr "2024-01-01T11:00") sample_times [JInt 10; JNull]
     = None
  /\ @align_precip ref_runtime (JStr "now") sample_times sample_probs = None.
Proof. repeat split; vm_compute; reflexivity. Qed.

(** A name seen before is skipped, also when the earlier element was dropped
    for its missing centre. *)
Lemma scan_seen (lat lon : R) st el name :
  el_name el = Some name -> name ∈ st.2 -> scan lat lon st el = st.
Proof.
  intros Hname Hin.
  destruct (scan_cases lat lon st el) as [Heq|(name' & Hname' & _ & Hnew & _)];
    [exact Heq|].
  congruence.
Qed.

Lemma collect_sample_names (lat lon : R) :
  p_name <$> collect lat lon [park_way; museum_node; park_way]
  = ["Cubbon Park"; "Government Museum"].
Proof.
  unfold collect.
  change (foldl (scan lat lon) ([], ∅) [park_way; museum_node; park_way])
    with (scan lat lon (scan lat lon (scan lat lon ([], ∅) park_way) museum_node)
            park_way).
  rewrite (scan_appends lat lon ([], ∅) park_way "Cubbon Park"
             (Some (1297 / 100)%R) (Some (7759 / 100)%R));
    [| reflexivity | discriminate | apply not_elem_of_empty | reflexivity ].
  rewrite (scan_appends lat lon _ museum_node "Government Museum"
             (Some (1298 / 100)%R) (Some (7760 / 100)%R));
    [| reflexivity | discriminate | | reflexivity ].
  - rewrite (scan_seen lat lon _ park_way "Cubbon Park"); [reflexivity | reflexivity |].
    simpl. apply elem_of_union_l, elem_of_union_r, elem_of_singleton. reflexivity.
  - simpl. apply not_elem_of_union. split; [apply not_elem_of_empty|].
    apply not_elem_of_singleton. discriminate.
Qed.

(** * Further properties of the code *)

(** ** Geocoding and the weather lookup *)

Section GeocodeExtras.
Context `{PyRuntime}.

(** The two conversions of the top candidate, then the record. *)
Lemma geocode_of_cons (place : string) (item : dict) (rest : list dict) :
  geocode_of place (Some (item :: rest))
  = (lat ← item !! "lat" ≫= py_float;
     lon ← item !! "lon" ≫= py_float;
     Some {| g_lat := lat;
             g_lon := lon;
             g_display_name := default (JStr place) (item !! "display_name");
             g_raw := item |}).
Proof.
  unfold geocode_of.
  destruct (item !! "lat") as [lat_v|]; simpl; [|reflexivity].
  destruct (py_float lat_v) as [lat|]; simpl; [|reflexivity].
  destruct (item !! "lon") as [lon_v|]; simpl; reflexivity.
Qed.

(** X6: [geocode_place] returns [None] exactly when the request fails, the
    candidate list is empty, or the top candidate has no latitude or no
    longitude that [float] converts. *)
Theorem geocode_place_none_iff (P : providers) (place : string) (limit : Z)
    (log : list request) :
  (geocode_place P place limit log).1 = None <->
  nominatim P place limit = None
  \/ nominatim P place limit = Some []
  \/ exists item rest,
       nominatim P place limit = Some (item :: rest)
       /\ (item !! "lat" ≫= py_float = None \/ item !! "lon" ≫= py_float = None).
Proof.
  rewrite geocode_place_run. simpl.
  destruct (nominatim P place limit) as [[|item rest]|].
  - split; [auto | reflexivity].
  - rewrite geocode_of_cons.
    destruct (item !! "lat" ≫= py_float) as [lat|] eqn:Hlat; simpl.
    + destruct (item !! "lon" ≫= py_float) as [lon|] eqn:Hlon; simpl.
      * split; [discriminate|].
        intros [Hf|[Hf|(i & r & [= <- <-] & [Hl|Hl])]]; congruence.
      * split; [|reflexivity]. intros _. right; right. exists item, rest. auto.
    + split; [|reflexivity]. intros _. right; right. exists item, rest. auto.
  - split; [auto | reflexivity].
Qed.

(** X7: a successful [geocode_place] is read off the top candidate alone:
    its coordinates are the converted [lat] and [lon] members, its display
    name is the candidate's member or else the query, and [raw] is the
    candidate; further candidates are ignored. *)
Theorem geocode_place_success_inv (P : providers) (place : string) (limit : Z)
    (log : list request) (g : geocode) :
  (geocode_place P place limit log).1 = Some g ->
  exists (item : dict) (rest : list dict),
    nominatim P place limit = Some (item :: rest)
    /\ item !! "lat" ≫= py_float = Some (g_lat g)
    /\ item !! "lon" ≫= py_float = Some (g_lon g)
    /\ g_display_name g = default (JStr place) (item !! "display_name")
    /\ g_raw g = item.
Proof.
  rewrite geocode_place_run. simpl.
  destruct (nominatim P place limit) as [[|item rest]|]; try discriminate.
  rewrite geocode_of_cons. intros Hg. exists item, rest.
  destruct (item !! "lat" ≫= py_float) as [lat|]; simpl in Hg; [|discriminate].
  destruct (item !! "lon" ≫= py_float) as [lon|]; simpl in Hg; [|discriminate].
  injection Hg as <-. simpl. auto.
Qed.

End GeocodeExtras.

Section WeatherExtras.
Context `{PyRuntime}.

Lemma py_index_lt {A} `{EqDecision A} (x : A) (l : list A) (i : nat) :
  py_index x l = Some i -> (i < length l)%nat.
Proof.
  intros Hi. apply py_index_Some in Hi as [Hl _].
  now apply lookup_lt_Some in Hl.
Qed.

(** X8: a precipitation probability that is present is the rounded value of
    an entry of the probability array, at an index that exists in the
    timestamp array: no value is invented. *)
Theorem align_precip_reads_the_series
    (curtime : jval) (times : list string) (probs : list jval) (z : Z) :
  align_precip curtime times probs = Some z ->
  exists (i : nat) (p : jval),
    (i < length times)%nat /\ probs !! i = Some p /\ int_round p = Some z.
Proof.
  unfold align_precip.
  destruct times as [|t times]; [discriminate|].
  destruct probs as [|p0 probs]; [discriminate|].
  destruct (time_in curtime (t :: times)).
  - destruct curtime as [| | |s]; try discriminate.
    destruct (py_index s (t :: times)) as [i|] eqn:Hi; [|discriminate]. simpl.
    destruct ((p0 :: probs) !! i) as [p|] eqn:Hp; [|discriminate]. simpl.
    intros Hz. exists i, p. split; [|auto]. now apply py_index_lt in Hi.
  - destruct (mapM (fun t1 => to_ts (JStr t1)) (t :: times)) as [ts|] eqn:Hts;
      [|discriminate]. simpl.
    destruct (to_ts curtime) as [c|]; [|discriminate]. simpl.
    destruct (py_min _) as [m|]; [|discriminate]. simpl.
    destruct (py_index m _) as [i|] eqn:Hi; [|discriminate]. simpl.
    destruct ((p0 :: probs) !! i) as [p|] eqn:Hp; [|discriminate]. simpl.
    intros Hz. exists i, p. split; [|auto].
    apply py_index_lt in Hi. rewrite length_fmap in Hi.
    apply mapM_Some in Hts. apply Forall2_length in Hts. simpl in *. lia.
Qed.

End WeatherExtras.

(** X9: when the current timestamp occurs among the hourly timestamps, the
    aligned probability does not depend on the timestamp parser. *)
Theorem align_precip_exact_needs_no_parser
    (H1 H2 : PyRuntime) (cur : string) (times : list string) (probs : list jval) :
  cur ∈ times ->
  @align_precip H1 (JStr cur) times probs = @align_precip H2 (JStr cur) times probs.
Proof.
  intros Hin. unfold align_precip, time_in.
  destruct times as [|t times]; [reflexivity|].
  destruct probs as [|p probs]; [reflexivity|].
  now rewrite bool_decide_eq_true_2 by exact Hin.
Qed.

Section WeatherExtras2.
Context `{PyRuntime}.

(** X10: a current-conditions block without a [time] member still gives a
    snapshot: temperature and wind speed are those of the block, the time
    and the precipitation probability are [None]. *)
Theorem get_weather_without_time
    (P : providers) (lat lon : R) (log : list request) (data : meteo) (curr : dict) :
  open_meteo P lat lon = Some data ->
  m_current_weather data = Some curr -> curr <> ∅ ->
  curr !! "time" = None ->
  (get_weather P lat lon log).1
  = Some {| w_temperature := py_get curr "temperature";
            w_windspeed := py_get curr "windspeed";
            w_time := JNull;
            w_precip_prob := None;
            w_raw := data |}.
Proof.
  intros Hresp Hcurr Hne Htime.
  rewrite get_weather_run, Hresp. cbn [fst].
  rewrite (weather_of_block data curr Hcurr Hne).
  assert (Hget : py_get curr "time" = JNull) by (unfold py_get; now rewrite Htime).
  unfold precip_of. rewrite Hget. do 2 f_equal.
  destruct (m_hourly data) as [h|]; [|reflexivity].
  unfold align_precip.
  destruct (h_time h) as [|t times]; [reflexivity|].
  destruct (h_precipitation_probability h) as [|p probs]; [reflexivity|].
  unfold time_in.
  destruct (mapM (fun t1 => to_ts (JStr t1)) (t :: times)); reflexivity.
Qed.
End WeatherExtras2.

(** X11: the integer that [round] yields differs from the number by at most
    one half, and when it differs by exactly one half it is even. *)
Lemma round_half_even_nearest (r : R) :
  (Rabs (r - IZR (round_half_even r)) <= 1 / 2)%R
  /\ (Rabs (r - IZR (round_half_even r)) = 1 / 2 -> Z.even (round_half_even r) = true)%R.
Proof.
  unfold round_half_even.
  destruct (base_Int_part r) as [Hlo Hhi].
  set (f := Int_part r) in *.
  destruct (decide (r - IZR f < 1 / 2)%R) as [Hlt|Hge].
  - split; [rewrite Rabs_right; lra|]. rewrite Rabs_right by lra. lra.
  - destruct (decide (1 / 2 < r - IZR f)%R) as [Hgt|Hle].
    + rewrite plus_IZR. split; [rewrite Rabs_left; lra|]. rewrite Rabs_left by lra. lra.
    + destruct (Z.even f) eqn:He.
      * split; [rewrite Rabs_right; lra | auto].
      * rewrite plus_IZR. split; [rewrite Rabs_left; lra|]. intros _.
        rewrite Z.even_add, He. reflexivity.
Qed.

(** ** The points-of-interest finder *)

Section ProvenanceFacts.
Variables lat lon : R.

(** One turn of the loop, with the reason of each outcome. *)
Lemma scan_outcome st el :
  (truthy_str (el_name el) = false /\ scan lat lon st el = st)
  \/ exists name, el_name el = Some name /\ name <> ""
       /\ (((name ∈ st.2) /\ scan lat lon st el = st)
           \/ ((name ∉ st.2) /\ coordinates el = None
               /\ scan lat lon st el = (st.1, st.2 ∪ {[ name ]}))
           \/ ((name ∉ st.2)
               /\ exists plat plon,
                    coordinates el = Some (plat, plon)
                    /\ scan lat lon st el
                       = (st.1 ++ [entry lat lon el name plat plon],
                          st.2 ∪ {[ name ]}))).
Proof.
  destruct st as [places seen]. unfold scan, el_name, entry.
  destruct (default ∅ (el_tags el) !! "name") as [name|] eqn:Hname; simpl; [|auto].
  destruct (decide (name <> "")) as [Hne|He].
  - rewrite bool_decide_eq_true_2 by exact Hne. simpl.
    right. exists name. split; [reflexivity|]. split; [exact Hne|].
    destruct (decide (name ∈ seen)) as [Hin|Hnotin]; [auto|].
    destruct (coordinates el) as [[plat plon]|]; [|auto].
    right; right. split; [exact Hnotin|]. exists plat, plon. auto.
  - rewrite bool_decide_eq_false_2 by exact He. auto.
Qed.

Lemma built_from_snoc elems el p :
  built_from lat lon elems p -> built_from lat lon (elems ++ [el]) p.
Proof.
  intros (i & e & plat & plon & Hi & Hname & Hne & Hfirst & Hc & Hp).
  exists i, e, plat, plon. split; [now apply lookup_app_l_Some|].
  split; [exact Hname|]. split; [exact Hne|]. split; [|auto].
  intros j el' Hj Hj'. apply (Hfirst j el' Hj).
  apply lookup_lt_Some in Hi.
  rewrite lookup_app_l in Hj' by lia. exact Hj'.
Qed.

Lemma provenance_inv_snoc elems el st :
  provenance_inv lat lon elems st -> provenance_inv lat lon (elems ++ [el]) (scan lat lon st el).
Proof.
  intros [Hseen Hall].
  assert (Hall' : Forall (built_from lat lon (elems ++ [el])) st.1).
  { eapply Forall_impl; [exact Hall|]. intros p. apply built_from_snoc. }
  assert (Hold : forall n, (n <> "" /\ exists e, e ∈ elems /\ el_name e = Some n) ->
                           n <> "" /\ exists e, e ∈ elems ++ [el] /\ el_name e = Some n).
  { intros n [Hn (e & He & Hen)]. split; [exact Hn|]. exists e.
    split; [apply elem_of_app; auto | exact Hen]. }
  destruct (scan_outcome st el)
    as [[Hfalsy ->]|(name & Hname & Hne & [[Hin ->]|[(Hnew & Hc & ->)|(Hnew & plat & plon & Hc & ->)]])].
  - split; [|exact Hall']. intros n. rewrite Hseen. split; [apply Hold|].
    intros [Hn (e & He & Hen)]. split; [exact Hn|].
    apply elem_of_app in He as [He|He]; [eauto|].
    apply list_elem_of_singleton in He as ->. rewrite Hen in Hfalsy. simpl in Hfalsy.
    apply bool_decide_eq_false in Hfalsy. tauto.
  - split; [|exact Hall']. intros n. rewrite Hseen. split; [apply Hold|].
    intros [Hn (e & He & Hen)].
    apply elem_of_app in He as [He|He]; [eauto|].
    apply list_elem_of_singleton in He as ->.
    assert (n = name) as -> by congruence. now apply Hseen.
  - split; [|exact Hall']. simpl. intros n. rewrite elem_of_union, elem_of_singleton, Hseen.
    split.
    + intros [Hn| ->]; [now apply Hold|]. split; [exact Hne|].
      exists el. split; [apply elem_of_app; right; now left | exact Hname].
    + intros [Hn (e & He & Hen)].
      apply elem_of_app in He as [He|He]; [left; eauto|].
      apply list_elem_of_singleton in He as ->. right. congruence.
  - split; simpl.
    + intros n. rewrite elem_of_union, elem_of_singleton, Hseen. split.
      * intros [Hn| ->]; [now apply Hold|]. split; [exact Hne|].
        exists el. split; [apply elem_of_app; right; now left | exact Hname].
      * intros [Hn (e & He & Hen)].
        apply elem_of_app in He as [He|He]; [left; eauto|].
        apply list_elem_of_singleton in He as ->. right. congruence.
    + apply Forall_app. split; [exact Hall'|]. apply Forall_singleton.
      exists (length elems), el, plat, plon.
      split; [now rewrite lookup_app_r, Nat.sub_diag by lia|].
      split; [exact Hname|]. split; [exact Hne|]. split; [|auto].
      intros j el' Hj Hj' Hn'. rewrite lookup_app_l in Hj' by exact Hj.
      apply Hnew, Hseen. split; [exact Hne|]. exists el'.
      split; [eapply list_elem_of_lookup_2, Hj' | exact Hn'].
Qed.

Lemma provenance_inv_foldl elems :
  provenance_inv lat lon elems (foldl (scan lat lon) ([], ∅) elems).
Proof.
  induction elems as [|el elems IH] using rev_ind.
  - split; simpl; [|constructor]. intros n. split.
    + intros Hn. now apply not_elem_of_empty in Hn.
    + intros [_ (e & He & _)]. inversion He.
  - rewrite foldl_snoc. now apply provenance_inv_snoc.
Qed.

Lemma collect_built_from elems :
  Forall (built_from lat lon elems) (collect lat lon elems).
Proof. apply provenance_inv_foldl. Qed.

End ProvenanceFacts.

Lemma primary_tag_Some (tags : gmap string string) (keys : list string) (s : string) :
  primary_tag tags keys = Some s ->
  exists (pre : list string) (k : string) (post : list string) (v : string),
    keys = pre ++ k :: post
    /\ tags !! k = Some v /\ v <> ""
    /\ (forall k', k' ∈ pre -> truthy_str (tags !! k') = false)
    /\ s = k +:+ "=" +:+ v.
Proof.
  induction keys as [|k keys IH]; simpl; [discriminate|].
  destruct (truthy_str (tags !! k)) eqn:Hk.
  - intros [= <-]. destruct (tags !! k) as [v|] eqn:Hv; [|discriminate].
    exists [], k, keys, v. simpl in Hk. apply bool_decide_eq_true in Hk.
    split; [reflexivity|]. split; [exact Hv|]. split; [exact Hk|].
    split; [|reflexivity]. intros k' Hk'. inversion Hk'.
  - intros Hs. destruct (IH Hs) as (pre & k0 & post & v & -> & Hv & Hne & Hpre & ->).
    exists (k :: pre), k0, post, v. split; [reflexivity|]. split; [exact Hv|].
    split; [exact Hne|]. split; [|reflexivity].
    intros k' Hk'. apply elem_of_cons in Hk' as [->|Hk']; auto.
Qed.

Lemma primary_tag_None (tags : gmap string string) (keys : list string) :
  primary_tag tags keys = None ->
  forall k, k ∈ keys -> truthy_str (tags !! k) = false.
Proof.
  induction keys as [|k keys IH]; simpl; intros Hn k' Hk'; [inversion Hk'|].
  destruct (truthy_str (tags !! k)) eqn:Hk; [discriminate|].
  apply elem_of_cons in Hk' as [->|Hk']; auto.
Qed.

(** What lines 176-186 leave in [plat] and [plon] when they do not
    [continue]. *)
Lemma coordinates_Some (el : element) (plat plon : option R) :
  coordinates el = Some (plat, plon) ->
  (el_type el = Some "node" /\ plat = el_lat el /\ plon = el_lon el)
  \/ (el_type el <> Some "node"
      /\ exists (c : center) (a b : R),
           el_center el = Some c /\ c_lat c = Some a /\ c_lon c = Some b
           /\ plat = Some a /\ plon = Some b).
Proof.
  unfold coordinates.
  destruct (decide (el_type el = Some "node")) as [Hn|Hn].
  - intros [= <- <-]. auto.
  - destruct (el_center el) as [c|]; simpl; [|discriminate].
    destruct (c_lat c) as [a|] eqn:Ha; [|discriminate].
    destruct (c_lon c) as [b|] eqn:Hb; [|discriminate].
    intros [= <- <-]. right. split; [exact Hn|]. exists c, a, b. auto.
Qed.

Section PlacesExtras.
Variable P : providers.

Lemma find_places_elem_of
    (lat lon : R) (radius_m max_places : Z) (log : list request)
    (elems : list element) (p : place) :
  overpass P lat lon radius_m = Some elems ->
  p ∈ (find_places P lat lon radius_m max_places log).1 ->
  p ∈ collect lat lon elems.
Proof.
  intros Hresp. rewrite find_places_run, Hresp. simpl. apply rank_elem_of.
Qed.

(** X12: every entry of a result was built from the first element of the
    response that carries its name: the name is not empty, no earlier element
    has it, the entry's tags are those of that element, and its position is
    the one lines 176-186 read: of a node the members [lat] and [lon]
    themselves, present or not; of any other element the [lat] and [lon] of
    its [center], both present. *)
Theorem find_places_entry_provenance
    (lat lon : R) (radius_m max_places : Z) (log : list request)
    (elems : list element) (p : place) :
  overpass P lat lon radius_m = Some elems ->
  p ∈ (find_places P lat lon radius_m max_places log).1 ->
  exists (i : nat) (el : element),
    elems !! i = Some el
    /\ el_name el = Some (p_name p)
    /\ p_name p <> ""
    /\ (forall (j : nat) (el' : element),
          (j < i)%nat -> elems !! j = Some el' -> el_name el' <> Some (p_name p))
    /\ p_tags p = default ∅ (el_tags el)
    /\ ((el_type el = Some "node" /\ p_lat p = el_lat el /\ p_lon p = el_lon el)
        \/ (el_type el <> Some "node"
            /\ exists (c : center) (a b : R),
                 el_center el = Some c /\ c_lat c = Some a /\ c_lon c = Some b
                 /\ p_lat p = Some a /\ p_lon p = Some b)).
Proof.
  intros Hresp Hp. apply (find_places_elem_of _ _ _ _ _ _ _ Hresp) in Hp.
  pose proof (collect_built_from lat lon elems) as Hall.
  rewrite Forall_forall in Hall.
  destruct (Hall p Hp) as (i & el & plat & plon & Hi & Hname & Hne & Hfirst & Hc & Heq).
  exists i, el.
  assert (Htags : p_tags p = default ∅ (el_tags el)) by now rewrite Heq.
  assert (Hlat : p_lat p = plat) by now rewrite Heq.
  assert (Hlon : p_lon p = plon) by now rewrite Heq.
  split; [exact Hi|]. split; [exact Hname|]. split; [exact Hne|].
  split; [exact Hfirst|]. split; [exact Htags|].
  rewrite Hlat, Hlon. now apply coordinates_Some.
Qed.

(** X13: if the first element carrying a name has no usable coordinates (a
    way without a centre), no entry of the result has that name, whatever
    follows in the response. *)
Theorem find_places_name_shadowed_by_centreless_way
    (lat lon : R) (radius_m max_places : Z) (log : list request)
    (elems : list element) (i : nat) (el : element) (name : string) :
  overpass P lat lon radius_m = Some elems ->
  elems !! i = Some el ->
  el_name el = Some name ->
  (forall (j : nat) (el' : element),
      (j < i)%nat -> elems !! j = Some el' -> el_name el' <> Some name) ->
  coordinates el = None ->
  name ∉ p_name <$> (find_places P lat lon radius_m max_places log).1.
Proof.
  intros Hresp Hi Hname Hfirst Hc Hin.
  apply list_elem_of_fmap in Hin as (p & -> & Hp).
  apply (find_places_elem_of _ _ _ _ _ _ _ Hresp) in Hp.
  pose proof (collect_built_from lat lon elems) as Hall.
  rewrite Forall_forall in Hall.
  destruct (Hall p Hp) as (i' & el' & plat & plon & Hi' & Hname' & _ & Hfirst' & Hc' & _).
  destruct (Nat.lt_trichotomy i i') as [Hlt|[->|Hgt]].
  - now apply (Hfirst' i el Hlt Hi).
  - congruence.
  - now apply (Hfirst i' el' Hgt Hi').
Qed.

(** X14: the type of an entry is [key=value] for the first of tourism,
    historic, leisure, amenity whose tag value is not empty, and [other] when
    none of the four has a non-empty value. *)
Theorem find_places_category
    (lat lon : R) (radius_m max_places : Z) (log : list request) (p : place) :
  p ∈ (find_places P lat lon radius_m max_places log).1 ->
  (exists (pre : list string) (k : string) (post : list string) (v : string),
      tag_keys = pre ++ k :: post
      /\ p_tags p !! k = Some v /\ v <> ""
      /\ (forall k', k' ∈ pre -> truthy_str (p_tags p !! k') = false)
      /\ p_type p = k +:+ "=" +:+ v)
  \/ ((forall k, k ∈ tag_keys -> truthy_str (p_tags p !! k) = false)
      /\ p_type p = "other").
Proof.
  rewrite find_places_run. simpl.
  destruct (overpass P lat lon radius_m) as [elems|] eqn:Hresp; simpl; [|inversion 1].
  intros Hp. apply rank_elem_of in Hp.
  pose proof (collect_built_from lat lon elems) as Hall.
  rewrite Forall_forall in Hall.
  destruct (Hall p Hp) as (i & el & plat & plon & _ & _ & _ & _ & _ & ->).
  unfold entry. cbn [p_tags p_type].
  destruct (primary_tag (default ∅ (el_tags el)) tag_keys) as [s|] eqn:Hs;
    cbn [default from_option].
  - left. now apply primary_tag_Some.
  - right. split; [|reflexivity]. now apply primary_tag_None.
Qed.

(** X15: with limit 0 the result is empty; with a negative limit the result
    is the sorted entries that have a distance without their last [-limit]
    ones, and entries without a distance are not appended. *)
Theorem find_places_nonpositive_limit
    (lat lon : R) (radius_m max_places : Z) (log : list request) (elems : list element) :
  (max_places <= 0)%Z ->
  overpass P lat lon radius_m = Some elems ->
  let located :=
    sorted_by_distance (filter (fun p => is_Some (p_distance_km p)) (collect lat lon elems)) in
  (max_places = 0%Z -> (find_places P lat lon radius_m max_places log).1 = [])
  /\ ((max_places < 0)%Z ->
      (find_places P lat lon radius_m max_places log).1
      = take (length located - Z.to_nat (- max_places)) located).
Proof.
  intros Hk Hresp located. rewrite find_places_run, Hresp. simpl.
  unfold rank, slice_to. fold located.
  rewrite (proj2 (Z.ltb_ge _ _)) by lia. split.
  - intros ->. reflexivity.
  - intros Hneg. now rewrite (proj2 (Z.leb_gt _ _)) by lia.
Qed.

(** X16: when the limit is at least the number of entries collected, the
    result is a rearrangement of all of them: ranking drops nothing. *)
Theorem find_places_keeps_all_that_fit
    (lat lon : R) (radius_m max_places : Z) (log : list request) (elems : list element) :
  overpass P lat lon radius_m = Some elems ->
  (Z.of_nat (length (collect lat lon elems)) <= max_places)%Z ->
  (find_places P lat lon radius_m max_places log).1 ≡ₚ collect lat lon elems.
Proof.
  intros Hresp Hfit. rewrite find_places_run, Hresp. simpl.
  rewrite rank_eq by lia.
  assert (Hperm :
    sorted_by_distance (filter (fun p => is_Some (p_distance_km p)) (collect lat lon elems))
    ++ filter (fun p => p_distance_km p = None) (collect lat lon elems)
    ≡ₚ collect lat lon elems).
  { rewrite (list_filter_iff (fun p => p_distance_km p = None)
               (fun p => ~ is_Some (p_distance_km p)))
      by (intros p; apply eq_None_not_Some).
    now rewrite sorted_by_distance_perm, filter_app_complement. }
  rewrite take_ge; [exact Hperm|].
  rewrite Hperm. lia.
Qed.

(** X17: when the limit is positive and some collected entry has a
    distance, the first entry of the result has a distance, and no collected
    entry is nearer. *)
Theorem find_places_first_is_nearest
    (lat lon : R) (radius_m max_places : Z) (log : list request)
    (elems : list element) (q : place) (d : R) :
  (0 < max_places)%Z ->
  overpass P lat lon radius_m = Some elems ->
  q ∈ collect lat lon elems -> p_distance_km q = Some d ->
  exists (p : place) (rest : list place) (d0 : R),
    (find_places P lat lon radius_m max_places log).1 = p :: rest
    /\ p_distance_km p = Some d0 /\ (d0 <= d)%R.
Proof.
  intros Hk Hresp Hq Hd. rewrite find_places_run, Hresp. simpl.
  rewrite rank_eq by lia.
  set (located := filter (fun p => is_Some (p_distance_km p)) (collect lat lon elems)).
  assert (Hql : q ∈ sorted_by_distance located).
  { rewrite sorted_by_distance_perm. apply list_elem_of_filter. split; [now exists d | exact Hq]. }
  assert (Hsorted : StronglySorted dist_le (sorted_by_distance located)).
  { apply sorted_by_distance_sorted, Forall_forall. intros p Hp.
    now apply list_elem_of_filter in Hp as [Hp _]. }
  assert (Hall : Forall (fun p => is_Some (p_distance_km p)) (sorted_by_distance located)).
  { rewrite sorted_by_distance_perm. apply Forall_forall. intros p Hp.
    now apply list_elem_of_filter in Hp as [Hp _]. }
  destruct (sorted_by_distance located) as [|p l]; [inversion Hql|].
  apply Forall_cons in Hall as [[d0 Hd0] _].
  exists p, (take (Z.to_nat max_places - 1) (l ++ filter (fun p => p_distance_km p = None)
                                                     (collect lat lon elems))), d0.
  split; [|split; [exact Hd0|]].
  - destruct (Z.to_nat max_places) as [|n] eqn:Hn; [lia|]. simpl. now rewrite Nat.sub_0_r.
  - apply elem_of_cons in Hql as [->|Hql]; [rewrite Hd0 in Hd; injection Hd as ->; lra|].
    apply StronglySorted_cons in Hsorted as [Hle _].
    rewrite Forall_forall in Hle. specialize (Hle q Hql).
    unfold dist_le in Hle. rewrite Hd0, Hd in Hle. exact Hle.
Qed.

End PlacesExtras.

Lemma well_places :
  (find_places (answering [bare_node] None) 1 1 20000 5 []).1 = [bare_entry].
Proof. vm_compute. reflexivity. Qed.

Lemma lake_collect (lat lon : R) : collect lat lon [lake_way; lake_node] = [].
Proof. vm_compute. reflexivity. Qed.

Lemma well_collect (lat lon : R) : collect lat lon [bare_node] = [bare_entry].
Proof. vm_compute. reflexivity. Qed.

Lemma distance_of_nonzero (lat lon a b : R) :
  a <> 0%R -> b <> 0%R ->
  distance_of lat lon (Some a) (Some b) = Some (haversine lat lon a b).
Proof.
  intros Ha Hb. unfold distance_of, truthy_num.
  now rewrite !bool_decide_eq_true_2 by assumption.
Qed.

Lemma park_collect (lat lon : R) :
  collect lat lon [park_way]
  = [entry lat lon park_way "Cubbon Park" (Some (1297 / 100)%R) (Some (7759 / 100)%R)].
Proof.
  unfold collect.
  change (foldl (scan lat lon) ([], ∅) [park_way]) with (scan lat lon ([], ∅) park_way).
  rewrite (scan_appends lat lon ([], ∅) park_way "Cubbon Park"
             (Some (1297 / 100)%R) (Some (7759 / 100)%R));
    [reflexivity | reflexivity | discriminate | apply not_elem_of_empty | reflexivity ].
Qed.

Lemma park_places (lat lon : R) :
  places_of lat lon (Some [park_way]) 5
  = [entry lat lon park_way "Cubbon Park" (Some (1297 / 100)%R) (Some (7759 / 100)%R)].
Proof.
  unfold places_of. rewrite park_collect, rank_eq by lia.
  unfold entry. rewrite distance_of_nonzero by lra. reflexivity.
Qed.

(** A response with a node without position, a park and the node again: the
    park has a distance and goes first. *)
Lemma well_park_collect (lat lon : R) :
  collect lat lon [bare_node; park_way; bare_node]
  = [bare_entry;
     entry lat lon park_way "Cubbon Park" (Some (1297 / 100)%R) (Some (7759 / 100)%R)].
Proof.
  unfold collect.
  change (foldl (scan lat lon) ([], ∅) [bare_node; park_way; bare_node])
    with (scan lat lon (scan lat lon (scan lat lon ([], ∅) bare_node) park_way) bare_node).
  rewrite (scan_appends lat lon ([], ∅) bare_node "Old Well" None None);
    [| reflexivity | discriminate | apply not_elem_of_empty | reflexivity ].
  rewrite (scan_appends lat lon _ park_way "Cubbon Park"
             (Some (1297 / 100)%R) (Some (7759 / 100)%R));
    [| reflexivity | discriminate | | reflexivity ].
  - rewrite (scan_seen lat lon _ bare_node "Old Well"); [reflexivity | reflexivity |].
    simpl. apply elem_of_union_l, elem_of_union_r, elem_of_singleton. reflexivity.
  - simpl. apply not_elem_of_union. split; [apply not_elem_of_empty|].
    apply not_elem_of_singleton. discriminate.
Qed.

Lemma well_park_places (lat lon : R) :
  places_of lat lon (Some [bare_node; park_way; bare_node]) 5
  = [entry lat lon park_way "Cubbon Park" (Some (1297 / 100)%R) (Some (7759 / 100)%R);
     bare_entry].
Proof.
  unfold places_of. rewrite well_park_collect, rank_eq by lia.
  unfold entry. rewrite distance_of_nonzero by lra. reflexivity.
Qed.

(** ** The orchestrator *)

Lemma places_of_elem_of (lat lon : R) (resp : option (list element)) (k : Z) (p : place) :
  p ∈ places_of lat lon resp k ->
  exists elems, resp = Some elems /\ p ∈ collect lat lon elems.
Proof.
  destruct resp as [elems|]; simpl; [|inversion 1].
  intros Hp. exists elems. split; [reflexivity|]. now apply rank_elem_of in Hp.
Qed.

Lemma places_of_unique_bounded (lat lon : R) (resp : option (list element)) (k : Z) :
  (0 <= k)%Z ->
  NoDup (p_name <$> places_of lat lon resp k)
  /\ (length (places_of lat lon resp k) <= Z.to_nat k)%nat.
Proof.
  intros Hk. destruct resp as [elems|]; simpl.
  - rewrite rank_eq by lia. split.
    + rewrite fmap_take. eapply sublist_NoDup; [|apply sublist_take].
      apply ranked_names_NoDup, collect_NoDup.
    + rewrite length_take. lia.
  - split; [apply NoDup_nil_2 | lia].
Qed.

Section PlanExtras.
Context `{PyRuntime}.

(** X18: [plan_for_place] keeps the earlier log and sends the geocoding
    request first; on failure it sends nothing else, on success it asks the
    weather provider and then the map-feature provider about the geocoded
    coordinate, with radius 20000. *)
Theorem plan_for_place_requests (P : providers) (place_query : string) (log : list request) :
  ((geocode_place P place_query 1 log).1 = None
   /\ (plan_for_place P place_query log).2 = log ++ [NominatimSearch place_query 1])
  \/ exists g : geocode,
       (geocode_place P place_query 1 log).1 = Some g
       /\ (plan_for_place P place_query log).2
          = log ++ [NominatimSearch place_query 1;
                    OpenMeteoForecast (g_lat g) (g_lon g);
                    OverpassQuery (g_lat g) (g_lon g) 20000].
Proof.
  rewrite geocode_place_run. cbn [fst].
  destruct (geocode_of place_query (nominatim P place_query 1)) as [g|] eqn:Hgeo.
  - right. exists g. split; [reflexivity|].
    now rewrite (plan_for_place_run P place_query log g Hgeo).
  - left. split; [reflexivity|].
    unfold plan_for_place, net_bind. now rewrite geocode_place_run, Hgeo.
Qed.

(** X19: in a successful plan the query is the one given, the places have
    distinct non-empty names and are at most 5, and each distance is the one
    line 188 computes from the plan's own coordinate. *)
Theorem plan_for_place_places (P : providers) (place_query : string) (log : list request)
    (info : place_info) (w : option weather) (ps : list place) :
  (plan_for_place P place_query log).1 = PlanOk info w ps ->
  pi_query info = place_query
  /\ NoDup (p_name <$> ps)
  /\ (length ps <= 5)%nat
  /\ (forall p, p ∈ ps ->
        p_name p <> ""
        /\ p_distance_km p = distance_of (pi_lat info) (pi_lon info) (p_lat p) (p_lon p)).
Proof.
  destruct (geocode_of place_query (nominatim P place_query 1)) as [g|] eqn:Hgeo.
  - rewrite (plan_for_place_run P place_query log g Hgeo). cbn [fst].
    intros [= <- <- <-]. cbn [pi_query pi_lat pi_lon].
    split; [reflexivity|].
    destruct (places_of_unique_bounded (g_lat g) (g_lon g)
                (overpass P (g_lat g) (g_lon g) 20000) 5) as [Hnd Hlen]; [lia|].
    split; [exact Hnd|]. split; [exact Hlen|].
    intros p Hp. apply places_of_elem_of in Hp as (elems & _ & Hp). split.
    + pose proof (collect_built_from (g_lat g) (g_lon g) elems) as Hall.
      rewrite Forall_forall in Hall.
      now destruct (Hall p Hp) as (_ & _ & _ & _ & _ & _ & Hne & _).
    + pose proof (collect_distance (g_lat g) (g_lon g) elems) as Hall.
      rewrite Forall_forall in Hall. now apply Hall.
  - unfold plan_for_place, net_bind. rewrite geocode_place_run, Hgeo. discriminate.
Qed.

End PlanExtras.

(** The plan for a query the geocoder knows, when the weather provider fails
    and the map-feature provider returns the three elements above. *)
Lemma well_park_plan :
  (@plan_for_place ref_runtime (answering [bare_node; park_way; bare_node] None)
     "Bangalore" []).1
  = PlanOk {| pi_query := "Bangalore";
              pi_display_name := JStr "Bengaluru, Karnataka, India";
              pi_lat := (1297 / 10 ^ 2)%R;
              pi_lon := (7759 / 10 ^ 2)%R |}
           None
           [entry (1297 / 10 ^ 2) (7759 / 10 ^ 2) park_way "Cubbon Park"
              (Some (1297 / 100)%R) (Some (7759 / 100)%R);
            bare_entry].
Proof.
  rewrite (@plan_for_place_run ref_runtime (answering [bare_node; park_way; bare_node] None)
             "Bangalore" []
             {| g_lat := (1297 / 10 ^ 2)%R;
                g_lon := (7759 / 10 ^ 2)%R;
                g_display_name := JStr "Bengaluru, Karnataka, India";
                g_raw := bangalore_item |}) by reflexivity.
  cbn [fst g_lat g_lon g_display_name answering overpass open_meteo].
  rewrite well_park_places. reflexivity.
Qed.

(** ** The page *)

Section PageFacts.
Context `{PyRuntime} `{PyFormat}.
Variable P : providers.

(** [plan_for_place] keeps the log and always appends the geocoding request. *)
Lemma plan_for_place_log (place_query : string) (log : list request) :
  exists tail, (plan_for_place P place_query log).2
               = log ++ NominatimSearch place_query 1 :: tail.
Proof.
  destruct (geocode_of place_query (nominatim P place_query 1)) as [g|] eqn:Hgeo.
  - rewrite (plan_for_place_run P place_query log g Hgeo). simpl. eauto.
  - unfold plan_for_place, net_bind. rewrite geocode_place_run, Hgeo. simpl. eauto.
Qed.

Lemma blank_decide (s : string) :
  bool_decide (s = "") || bool_decide (str_strip s = "") = true <-> blank s.
Proof.
  unfold blank. rewrite orb_true_iff, !bool_decide_eq_true. reflexivity.
Qed.

Lemma page_blank (f : form) (log : list request) :
  submitted f = true -> blank (place_input f) ->
  page P f log = (header ++ [StError "Please enter a place name."], log).
Proof.
  intros Hs Hb. unfold page. rewrite Hs.
  now rewrite (proj2 (blank_decide _) Hb).
Qed.

Lemma page_planned (f : form) (log : list request) :
  submitted f = true -> ~ blank (place_input f) ->
  page P f log
  = (header ++ [StSpinner "Looking up the place and planning..."]
       ++ render (plan_for_place P (str_strip (place_input f)) log).1
                 (do_weather f) (do_places f),
     (plan_for_place P (str_strip (place_input f)) log).2).
Proof.
  intros Hs Hb. unfold page. rewrite Hs.
  destruct (bool_decide (place_input f = "") || bool_decide (str_strip (place_input f) = ""))
    eqn:Hd; [now apply blank_decide in Hd|].
  unfold net_bind, net_ret.
  now destruct (plan_for_place P (str_strip (place_input f)) log).
Qed.

(** X20: one run of the page sends no request exactly when the form was not
    submitted or the input is empty or blank; unsubmitted it shows the header
    alone, and on a blank input the header and the request to enter a place. *)
Theorem page_sends_nothing_iff (f : form) (log : list request) :
  ((page P f log).2 = log <-> submitted f = false \/ blank (place_input f))
  /\ (submitted f = false -> (page P f log).1 = header)
  /\ (submitted f = true -> blank (place_input f) ->
      (page P f log).1 = header ++ [StError "Please enter a place name."]).
Proof.
  split; [|split].
  - destruct (submitted f) eqn:Hs.
    + destruct (decide (blank (place_input f))) as [Hb|Hb].
      * rewrite (page_blank f log Hs Hb). simpl. tauto.
      * rewrite (page_planned f log Hs Hb). simpl.
        destruct (plan_for_place_log (str_strip (place_input f)) log) as [tail ->].
        split; [|intros [?|?]; [discriminate | contradiction]].
        intros Heq. apply (f_equal length) in Heq.
        rewrite length_app in Heq. simpl in Heq. lia.
    + unfold page. rewrite Hs. simpl. tauto.
  - intros Hs. unfold page. now rewrite Hs.
  - intros Hs Hb. now rewrite (page_blank f log Hs Hb).
Qed.

(** X21: for a submitted, non-blank input that the geocoder does not know,
    the page shows the header, the spinner and the error that quotes the
    stripped input, and only the geocoding request is sent. *)
Theorem page_place_not_found (f : form) (log : list request) :
  submitted f = true -> ~ blank (place_input f) ->
  (geocode_place P (str_strip (place_input f)) 1 log).1 = None ->
  page P f log
  = (header ++ [StSpinner "Looking up the place and planning...";
                StError ("I don't know this place exists: '" +:+ str_strip (place_input f)
                         +:+ "'. Please check spelling or try a different place.")],
     log ++ [NominatimSearch (str_strip (place_input f)) 1]).
Proof.
  intros Hs Hb Hgeo. rewrite (page_planned f log Hs Hb).
  rewrite geocode_place_run in Hgeo. simpl in Hgeo.
  unfold plan_for_place, net_bind. rewrite geocode_place_run, Hgeo. reflexivity.
Qed.

(** X22: the two checkboxes only hide sections of the page: for every run
    there are a base, a weather section and a places section such that the
    page is the base plus the checked sections, and the requests are the same
    for all four settings. *)
Theorem page_checkboxes_only_hide_sections (f : form) (log : list request) :
  exists (base weather_section places_section : list call) (log' : list request),
    forall a b : bool,
      page P (with_toggles f a b) log
      = (base ++ (if a then weather_section else [])
              ++ (if b then places_section else []),
         log').
Proof.
  destruct (submitted f) eqn:Hs.
  - destruct (decide (blank (place_input f))) as [Hb|Hb].
    + exists (header ++ [StError "Please enter a place name."]), [], [], log.
      intros a b. rewrite (page_blank (with_toggles f a b) log Hs Hb).
      destruct a, b; now rewrite !app_nil_r.
    + destruct (plan_for_place P (str_strip (place_input f)) log) as [result log'] eqn:Hplan.
      destruct result as [error|info w ps].
      * exists (header ++ [StSpinner "Looking up the place and planning..."; StError error]),
               [], [], log'.
        intros a b. rewrite (page_planned (with_toggles f a b) log Hs Hb). simpl.
        rewrite Hplan. simpl. destruct a, b; now rewrite !app_nil_r.
      * exists (header ++ [StSpinner "Looking up the place and planning...";
                           StMarkdown ("### Results for **" +:+ py_str (pi_display_name info)
                                       +:+ "**");
                           StWrite ("Coordinates: " +:+ float_fixed 6 (pi_lat info) +:+ ", "
                                    +:+ float_fixed 6 (pi_lon info))]),
               (render_weather w), (render_places ps), log'.
        intros a b. rewrite (page_planned (with_toggles f a b) log Hs Hb). simpl.
        rewrite Hplan. simpl. reflexivity.
  - exists header, [], [], log. intros a b. unfold page. simpl. rewrite Hs.
    unfold net_ret. destruct a, b; now rewrite !app_nil_r.
Qed.



End PageFacts.

(** ** Instances of the properties that have a precondition *)

Lemma geocode_place_success_inv_witness :
  exists (item : dict) (rest : list dict),
    nominatim all_up "Bangalore" 1 = Some (item :: rest)
    /\ item !! "lat" ≫= @py_float ref_runtime = Some (1297 / 10 ^ 2)%R
    /\ item !! "lon" ≫= @py_float ref_runtime = Some (7759 / 10 ^ 2)%R
    /\ JStr "Bangalore" = default (JStr "Bangalore") (item !! "display_name")
    /\ bare_item = item.
Proof.
  apply (@geocode_place_success_inv ref_runtime all_up "Bangalore" 1 []
           {| g_lat := (1297 / 10 ^ 2)%R;
              g_lon := (7759 / 10 ^ 2)%R;
              g_display_name := JStr "Bangalore";
              g_raw := bare_item |}).
  reflexivity.
Defined.

Lemma align_precip_reads_the_series_witness :
  exists (i : nat) (p : jval),
    (i < length sample_times)%nat /\ sample_probs !! i = Some p /\ int_round p = Some 80%Z.
Proof.
  apply (@align_precip_reads_the_series ref_runtime (JStr "2024-01-01T10:40")).
  vm_compute. reflexivity.
Defined.

Lemma align_precip_exact_needs_no_parser_witness :
  @align_precip ref_runtime (JStr "2024-01-01T11:00") sample_times sample_probs
  = @align_precip no_parser (JStr "2024-01-01T11:00") sample_times sample_probs.
Proof.
  apply (align_precip_exact_needs_no_parser ref_runtime no_parser).
  apply list_elem_of_further, list_elem_of_here.
Defined.

Lemma get_weather_without_time_witness :
  (@get_weather ref_runtime (answering [] (Some meteo_without_time)) 1 1 []).1
  = Some {| w_temperature := py_get current_without_time "temperature";
            w_windspeed := py_get current_without_time "windspeed";
            w_time := JNull;
            w_precip_prob := None;
            w_raw := meteo_without_time |}.
Proof.
  apply (@get_weather_without_time ref_runtime (answering [] (Some meteo_without_time))
           1%R 1%R [] meteo_without_time current_without_time).
  - reflexivity.
  - reflexivity.
  - apply insert_non_empty.
  - vm_compute. reflexivity.
Defined.

Lemma find_places_entry_provenance_witness :
  exists (i : nat) (el : element),
    [park_way] !! i = Some el
    /\ el_name el = Some "Cubbon Park"
    /\ "Cubbon Park" <> ""
    /\ (forall (j : nat) (el' : element),
          (j < i)%nat -> [park_way] !! j = Some el' -> el_name el' <> Some "Cubbon Park")
    /\ <[ "name" := "Cubbon Park" ]> {[ "leisure" := "park" ]} = default ∅ (el_tags el)
    /\ ((el_type el = Some "node"
         /\ Some (1297 / 100)%R = el_lat el /\ Some (7759 / 100)%R = el_lon el)
        \/ (el_type el <> Some "node"
            /\ exists (c : center) (a b : R),
                 el_center el = Some c /\ c_lat c = Some a /\ c_lon c = Some b
                 /\ Some (1297 / 100)%R = Some a /\ Some (7759 / 100)%R = Some b)).
Proof.
  apply (find_places_entry_provenance (answering [park_way] None) 1 1 20000 5 []
           [park_way]
           (entry 1 1 park_way "Cubbon Park" (Some (1297 / 100)%R) (Some (7759 / 100)%R))).
  - reflexivity.
  - rewrite find_places_run. cbn [fst answering overpass].
    rewrite park_places. apply list_elem_of_here.
Defined.

Lemma find_places_name_shadowed_by_centreless_way_witness :
  "Lake" ∉ p_name <$> (find_places (answering [lake_way; lake_node] None) 1 1 20000 5 []).1.
Proof.
  apply (find_places_name_shadowed_by_centreless_way
           (answering [lake_way; lake_node] None) 1 1 20000 5 []
           [lake_way; lake_node] 0 lake_way "Lake").
  - reflexivity.
  - reflexivity.
  - reflexivity.
  - intros j el' Hj. lia.
  - vm_compute. reflexivity.
Defined.

Lemma find_places_category_witness :
  (exists (pre : list string) (k : string) (post : list string) (v : string),
      tag_keys = pre ++ k :: post
      /\ p_tags bare_entry !! k = Some v /\ v <> ""
      /\ (forall k', k' ∈ pre -> truthy_str (p_tags bare_entry !! k') = false)
      /\ p_type bare_entry = k +:+ "=" +:+ v)
  \/ ((forall k, k ∈ tag_keys -> truthy_str (p_tags bare_entry !! k) = false)
      /\ p_type bare_entry = "other").
Proof.
  apply (find_places_category (answering [bare_node] None) 1 1 20000 5 []).
  rewrite well_places. apply list_elem_of_here.
Defined.

Lemma find_places_nonpositive_limit_witness :
  ((-1)%Z = 0%Z -> (find_places (answering [park_way] None) 1 1 20000 (-1) []).1 = [])
  /\ ((-1 < 0)%Z ->
      (find_places (answering [park_way] None) 1 1 20000 (-1) []).1
      = take (length (sorted_by_distance
                        (filter (fun p => is_Some (p_distance_km p))
                                (collect 1 1 [park_way])))
              - Z.to_nat (- -1))
             (sorted_by_distance
                (filter (fun p => is_Some (p_distance_km p)) (collect 1 1 [park_way])))).
Proof.
  apply (find_places_nonpositive_limit (answering [park_way] None) 1 1 20000 (-1) []
           [park_way]).
  - lia.
  - reflexivity.
Defined.

Lemma find_places_keeps_all_that_fit_witness :
  (find_places (answering [bare_node] None) 1 1 20000 5 []).1 ≡ₚ collect 1 1 [bare_node].
Proof.
  apply (find_places_keeps_all_that_fit (answering [bare_node] None) 1 1 20000 5 []
           [bare_node]).
  - reflexivity.
  - rewrite well_collect. simpl. lia.
Defined.

Lemma find_places_first_is_nearest_witness :
  exists (p : place) (rest : list place) (d0 : R),
    (find_places (answering [park_way] None) 1 1 20000 5 []).1 = p :: rest
    /\ p_distance_km p = Some d0
    /\ (d0 <= haversine 1 1 (1297 / 100) (7759 / 100))%R.
Proof.
  apply (find_places_first_is_nearest (answering [park_way] None) 1 1 20000 5 []
           [park_way]
           (entry 1 1 park_way "Cubbon Park" (Some (1297 / 100)%R) (Some (7759 / 100)%R))).
  - lia.
  - reflexivity.
  - rewrite park_collect. apply list_elem_of_here.
  - apply distance_of_nonzero; lra.
Defined.

Lemma plan_for_place_places_witness :
  "Bangalore" = "Bangalore"
  /\ NoDup ["Cubbon Park"; "Old Well"]
  /\ (2 <= 5)%nat
  /\ (forall p,
        p ∈ [entry (1297 / 10 ^ 2) (7759 / 10 ^ 2) park_way "Cubbon Park"
               (Some (1297 / 100)%R) (Some (7759 / 100)%R);
             bare_entry] ->
        p_name p <> ""
        /\ p_distance_km p
           = distance_of (1297 / 10 ^ 2)%R (7759 / 10 ^ 2)%R (p_lat p) (p_lon p)).
Proof.
  apply (@plan_for_place_places ref_runtime
           (answering [bare_node; park_way; bare_node] None) "Bangalore" []
           {| pi_query := "Bangalore";
              pi_display_name := JStr "Bengaluru, Karnataka, India";
              pi_lat := (1297 / 10 ^ 2)%R;
              pi_lon := (7759 / 10 ^ 2)%R |}
           None
           [entry (1297 / 10 ^ 2) (7759 / 10 ^ 2) park_way "Cubbon Park"
              (Some (1297 / 100)%R) (Some (7759 / 100)%R);
            bare_entry]).
  exact well_park_plan.
Defined.

Lemma page_place_not_found_witness :
  @page ref_runtime plain_format nowhere
    {| place_input := "  Nowhere12345xyz "; do_weather := true; do_places := true;
       submitted := true |} []
  = (@header ++ [StSpinner "Looking up the place and planning...";
                 StError "I don't know this place exists: 'Nowhere12345xyz'. Please check spelling or try a different place."],
     [NominatimSearch "Nowhere12345xyz" 1]).
Proof.
  apply (@page_place_not_found ref_runtime plain_format nowhere
           {| place_input := "  Nowhere12345xyz "; do_weather := true; do_places := true;
              submitted := true |} []).
  - reflexivity.
  - intros [Hb|Hb]; [discriminate|]. vm_compute in Hb. discriminate.
  - reflexivity.
Defined.

